(** * do-failover: the failover controller of [failover.py]

    A shallow embedding of [failover.py]: the health probe
    ([_get], [checkService]), the ownership client ([getMetadata],
    [getDropletID], [hasFloatingIP], [takeFloatingIP]), the start-up
    validation and the polling loop of [main], and the thread of the
    [Watchdog].

    Python values that come out of [json.loads] or [os.environ] are
    modelled by the type [json]; the network is an abstract, possibly
    stateful, [urlopen]; every effect the program has (a request, a log
    record, a watchdog operation, a sleep) is recorded as an [event]. *)

From Stdlib Require Import String Ascii ZArith List Bool Lia.
Import ListNotations.

Local Open Scope string_scope.
Local Open Scope list_scope.
Local Open Scope Z_scope.

(** ** Python values *)

(** The values [json.loads] produces ([None], [bool], [int], [str],
    [list], [dict]).  A [dict] is its list of items, keys distinct.
    Numbers with a fraction or an exponent (Python [float]) are outside the
    model. *)
#[local] Set Warnings "-register-all".

Inductive json : Type :=
| JNull
| JBool (b : bool)
| JInt (n : Z)
| JStr (s : string)
| JList (l : list json)
| JDict (d : list (string * json)).

(** A subscript or a key of [_item]: the program only ever passes [str]
    keys, the [list] branch of [_item] expects an [int]. *)
Inductive key : Type :=
| KStr (s : string)
| KInt (i : Z).

(** A positional argument of [str.format]. *)
Inductive arg : Type :=
| AStr (s : string)
| AInt (n : Z).

(** A formatted message, kept as the template and its arguments. *)
Record text : Type := Fmt { template : string; args : list arg }.

(** The exceptions the program can see.  All of them derive from Python's
    [Exception]. *)
Inductive exn : Type :=
| HTTPError (code : Z)
| URLError (reason : string)
| ValueError
| KeyError (k : key)
| TypeError
| IndexError
| AttributeError
| Exception_ (msg : text).

Inductive result (A : Type) : Type :=
| Ok (a : A)
| Raise (e : exn).
Arguments Ok {A} a.
Arguments Raise {A} e.

Module Py.

  (** [dict.get]-like lookup in the items of a [dict]. *)
Fixpoint lookup (k : string) (d : list (string * json)) : option json :=
    match d with
    | [] => None
    | (k', v) :: d' => if String.eqb k k' then Some v else lookup k d'
    end.

  (** [sub in s] on two [str]. *)
Fixpoint contains (sub s : string) : bool :=
    String.prefix sub s ||
    match s with
    | EmptyString => false
    | String _ s' => contains sub s'
    end.

  (** [a == b]: [bool] is a subclass of [int], sequences compare
      element-wise, dicts compare as mappings. *)
Fixpoint eq (a b : json) {struct a} : bool :=
    match a, b with
    | JNull, JNull => true
    | JBool x, JBool y => Bool.eqb x y
    | JBool x, JInt n => Z.eqb (if x then 1 else 0) n
    | JInt n, JBool x => Z.eqb n (if x then 1 else 0)
    | JInt n, JInt m => Z.eqb n m
    | JStr s, JStr t => String.eqb s t
    | JList xs, JList ys =>
        (fix go (xs ys : list json) {struct xs} : bool :=
           match xs, ys with
           | [], [] => true
           | x :: xs', y :: ys' => eq x y && go xs' ys'
           | _, _ => false
           end) xs ys
    | JDict d, JDict d' =>
        Nat.eqb (length d) (length d') &&
        (fix go (d : list (string * json)) {struct d} : bool :=
           match d with
           | [] => true
           | (k, v) :: rest =>
               match lookup k d' with
               | Some v' => eq v v'
               | None => false
               end && go rest
           end) d
    | _, _ => false
    end.

  (** [v is None] / [v == None]. *)
Definition is_None (v : json) : bool :=
    match v with JNull => true | _ => false end.

  (** [len(l) <= k] for a list [l]: comparing an [int] with a [str] is a
      [TypeError]. *)
Definition len_le (l : list json) (k : key) : result bool :=
    match k with
    | KInt i => Ok (Z.of_nat (length l) <=? i)
    | KStr _ => Raise TypeError
    end.

  (** [k in v] for the second operand [v]. *)
Definition member (k : key) (v : json) : result bool :=
    match v, k with
    | JDict d, KStr s => Ok (match lookup s d with Some _ => true | None => false end)
    | JDict _, KInt _ => Ok false
    | JList l, _ =>
        Ok (existsb (fun x => eq (match k with KStr s => JStr s | KInt i => JInt i end) x) l)
    | JStr s, KStr sub => Ok (contains sub s)
    | JStr _, KInt _ => Raise TypeError
    | _, _ => Raise TypeError
    end.

  (** [v[k]]. *)
Definition subscript (v : json) (k : key) : result json :=
    match v, k with
    | JDict d, KStr s =>
        match lookup s d with
        | Some x => Ok x
        | None => Raise (KeyError k)
        end
    | JDict _, KInt _ => Raise (KeyError k)
    | JList l, KInt i =>
        let n := Z.of_nat (length l) in
        if (0 <=? i) && (i <? n) then
          match nth_error l (Z.to_nat i) with Some x => Ok x | None => Raise IndexError end
        else if (i <? 0) && (- n <=? i) then
          match nth_error l (Z.to_nat (n + i)) with Some x => Ok x | None => Raise IndexError end
        else Raise IndexError
    | JList _, KStr _ => Raise TypeError
    | JStr _, KInt _ => Raise TypeError   (* a [str] item is not a [json] value of the model *)
    | _, _ => Raise TypeError
    end.

  (** [s.split(sep)] for a one-character separator. *)
Fixpoint split (sep : ascii) (s : string) : list string :=
    match s with
    | EmptyString => [EmptyString]
    | String c rest =>
        if Ascii.eqb c sep then EmptyString :: split sep rest
        else match split sep rest with
             | [] => [String c EmptyString]
             | w :: ws => String c w :: ws
             end
    end.

End Py.

(** ** [_item] *)

(** [_item(dict_, *keys, default=None)]: the value reached by following
    [keys] through nested dicts and lists, or [default]. *)
Fixpoint _item (dict_ : json) (keys : list key) (default : json) {struct keys}
  : result json :=
  if Py.is_None dict_ then Ok default
  else
    match keys with
    | [] => Ok dict_
    | k :: keys' =>
        match dict_ with
        | JList l =>
            match Py.len_le l k with
            | Raise e => Raise e
            | Ok true => Ok default
            | Ok false =>
                match Py.subscript dict_ k with
                | Raise e => Raise e
                | Ok v => _item v keys' default
                end
            end
        | _ =>
            match Py.member k dict_ with
            | Raise e => Raise e
            | Ok false => Ok default
            | Ok true =>
                match Py.subscript dict_ k with
                | Raise e => Raise e
                | Ok v => _item v keys' default
                end
            end
        end
    end.

(** ** HTTP, logging and the events of a run *)

(** A [urllib.request.Request] object: its URL as the object keeps it
    ([full_url]) and the headers added with [add_header], in the order they
    were added. *)
Record request : Type := {
  url : string;
  headers : list (string * string)
}.

Definition add_header (req : request) (name value : string) : request :=
  {| url := url req; headers := headers req ++ [(name, value)] |}.

(** The part of [urllib] that runs before anything is sent:
    [Request(url)] takes the URL apart and raises [ValueError] when it has
    no type (scheme). *)
Module Urllib.

  (** [c.isspace()] for a character below 256. *)
Definition is_space (c : ascii) : bool :=
  match nat_of_ascii c with
  | 9%nat | 10%nat | 11%nat | 12%nat | 13%nat
  | 28%nat | 29%nat | 30%nat | 31%nat | 32%nat
  | 133%nat | 160%nat => true
  | _ => false
  end.

Definition is_empty (s : string) : bool :=
  match s with EmptyString => true | String _ _ => false end.

Fixpoint lstrip (s : string) : string :=
  match s with
  | EmptyString => EmptyString
  | String c r => if is_space c then lstrip r else s
  end.

Fixpoint rstrip (s : string) : string :=
  match s with
  | EmptyString => EmptyString
  | String c r =>
      if is_space c && is_empty (rstrip r) then EmptyString else String c (rstrip r)
  end.

  (** [s.strip()]. *)
Definition strip (s : string) : string := lstrip (rstrip s).

  (** [s[-1:] == c]. *)
Fixpoint ends_with (c : ascii) (s : string) : bool :=
  match s with
  | EmptyString => false
  | String a EmptyString => Ascii.eqb a c
  | String _ r => ends_with c r
  end.

  (** [s[:-1]]. *)
Fixpoint drop_last (s : string) : string :=
  match s with
  | EmptyString => EmptyString
  | String _ EmptyString => EmptyString
  | String a r => String a (drop_last r)
  end.

  (** [s[n:]]. *)
Fixpoint drop (n : nat) (s : string) : string :=
  match n, s with
  | O, _ => s
  | S n', String _ r => drop n' r
  | S _, EmptyString => EmptyString
  end.

  (** [urllib.parse.unwrap]: [<URL:type://host/path>] becomes
      [type://host/path]. *)
Definition unwrap (url : string) : string :=
  let url := strip url in
  let url :=
    match url with
    | String c r =>
        if Ascii.eqb c "<" && ends_with ">" url then strip (drop_last r) else url
    | EmptyString => url
    end in
  if String.prefix "URL:" url then strip (drop 4 url) else url.

Fixpoint has_tag (s : string) : bool :=
  match s with
  | EmptyString => false
  | String c r => Ascii.eqb c "#" || has_tag r
  end.

  (** The first component of [url.rpartition('#')] when there is a ['#'],
      [url] when there is none: what [_splittag] keeps. *)
Fixpoint drop_tag (s : string) : string :=
  match s with
  | EmptyString => EmptyString
  | String c r =>
      if Ascii.eqb c "#" && negb (has_tag r) then EmptyString
      else String c (drop_tag r)
  end.

  (** Whether [_splittype] finds a type: the URL starts with one or more
      characters other than a slash and a colon, followed by a colon. *)
Fixpoint type_ends (seen : bool) (s : string) : bool :=
  match s with
  | EmptyString => false
  | String c r =>
      if Ascii.eqb c ":" then seen
      else if Ascii.eqb c "/" then false
      else type_ends true r
  end.

Definition has_type (url : string) : bool := type_ends false (drop_tag (unwrap url)).

  (** [Request(url).full_url]: the unwrapped URL, without its ['#'] when
      nothing follows it. *)
Definition full_url (url : string) : string :=
  let url := unwrap url in
  if ends_with "#" url then drop_last url else url.

  (** [urllib.request.Request(url)]. *)
Definition Request (url : string) : result request :=
  if has_type url then Ok {| url := full_url url; headers := [] |} else Raise ValueError.

End Urllib.

(** What [urlopen] hands back: the status and what [resp.read()] will
    give.  [Raise e]: reading the body raises [e] (the connection stalls or
    breaks off).  [Ok b]: the body is read; it is kept as
    [json.loads(body.decode('utf8'))] sees it, [Some v] when it decodes and
    parses to [v], [None] when decoding or parsing raises. *)
Record response : Type := Response {
  status : Z;
  body : result (option json)
}.

Inductive level : Type := DEBUG | INFO | WARNING | ERROR | CRITICAL.

(** An argument of a log record. *)
Inductive logarg : Type :=
| LStr (s : string)
| LInt (n : Z)
| LExn (e : exn)
| LBody (b : option json).

(** The functions whose calls the claims count. *)
Inductive call : Type :=
| CheckService (urls : list string) (hostname : option string)
| HasFloatingIP (ip apiKey : string)
| TakeFloatingIP (floatingIP apiKey : string)
| GetMetadata (cache : bool).

Inductive watchdog_op : Type := WdStart | WdKick | WdStop.

(** Everything observable a run does, in order.  [EvCall] marks the entry
    of a function; it is the only event that is not an effect of the
    program. *)
Inductive event : Type :=
| EvCall (c : call)
| EvRequest (req : request) (data : option json) (timeout : Z) (out : result response)
| EvLog (l : level) (template : string) (largs : list logarg)
| EvWatchdog (op : watchdog_op)
| EvSleep (seconds : Z).

(** The settings [main] reads from [os.environ], validated and split. *)
Record config : Type := Config {
  mode : string;
  apiKey : string;
  floatingIP : string;
  checkURLs : list string;
  mainURLs : option (list string);
  mainHost : option string
}.

(** [os.environ]: the items of the mapping, keys distinct. *)
Definition environ : Type := list (string * string).

Definition environ_dict (env : environ) : json :=
  JDict (map (fun kv => (fst kv, JStr (snd kv))) env).

(** [_item(os.environ, name)]: every value of the environment is a [str],
    the default is [None]. *)
Definition environ_item (env : environ) (name : string) : option string :=
  match _item (environ_dict env) [KStr name] JNull with
  | Ok (JStr s) => Some s
  | _ => None
  end.

(** What [main] has come to when the model stops following it. *)
Inductive main_result : Type :=
| Returned (code : Z)
| StillRunning.

Section Program.

  (** The network: who answers what, and how the answer changes what comes
      next.  [urlopen req data timeout] is [urllib.request.urlopen]: [data]
      is the JSON document of a POST body, [None] for a GET. *)
Variable World : Type.
Variable urlopen : request -> option json -> Z -> World -> result response * World.

  (** The process: the network it talks to and the module global
      [_metadata] ([JNull] is Python's [None]). *)
Record state : Type := State {
    world : World;
    _metadata : json
  }.

  (** A computation: from a state to a result or an exception, the next
      state and the events it produced. *)
Definition M (A : Type) : Type := state -> result A * state * list event.

Definition ret {A} (a : A) : M A := fun s => (Ok a, s, []).

Definition raise {A} (e : exn) : M A := fun s => (Raise e, s, []).

Definition bind {A B} (m : M A) (f : A -> M B) : M B :=
    fun s =>
      match m s with
      | (Ok a, s1, ev1) =>
          match f a s1 with
          | (r, s2, ev2) => (r, s2, ev1 ++ ev2)
          end
      | (Raise e, s1, ev1) => (Raise e, s1, ev1)
      end.

  (** [try: m except Exception as e: ...], with the outcome reified. *)
Definition attempt {A} (m : M A) : M (result A) :=
    fun s =>
      match m s with
      | (r, s1, ev1) => (Ok r, s1, ev1)
      end.

Definition emit (e : event) : M unit := fun s => (Ok tt, s, [e]).

Definition lift {A} (r : result A) : M A := fun s => (r, s, []).

Definition get_metadata : M json := fun s => (Ok (_metadata s), s, []).

Definition set_metadata (v : json) : M unit :=
    fun s => (Ok tt, {| world := world s; _metadata := v |}, []).

  (** [urllib.request.urlopen(req, data, timeout)] as a computation. *)
Definition do_urlopen (req : request) (data : option json) (timeout : Z) : M response :=
    fun s =>
      match urlopen req data timeout (world s) with
      | (out, w') =>
          (out, {| world := w'; _metadata := _metadata s |},
           [EvRequest req data timeout out])
      end.

Definition logging (l : level) (template : string) (largs : list logarg) : M unit :=
    emit (EvLog l template largs).

Definition watchdog (op : watchdog_op) : M unit := emit (EvWatchdog op).

  (** [time.sleep(seconds)]. *)
Definition sleep (seconds : Z) : M unit := emit (EvSleep seconds).

#[local] Notation "x <- m ;; k" := (bind m (fun x => k))
    (at level 100, m at next level, right associativity).
#[local] Notation "m ;; k" := (bind m (fun _ => k))
    (at level 100, right associativity).

  (** [resp.read()]. *)
Definition read (resp : response) : M (option json) := lift (body resp).

  (** *** The health probe *)

Definition _get (url : string) (hostname : option string) : M (option json) :=
    req <- lift (Urllib.Request url) ;;
    let req :=
      match hostname with
      | Some h => add_header req "Host" h
      | None => req
      end in
    resp <- do_urlopen req None 20 ;;
    if negb (status resp =? 200) then
      raise (Exception_ (Fmt "Failed to GET '{0}' (code {1})"
                             [AStr url; AInt (status resp)]))
    else read resp.

  (** The [for] loop of [checkService] inside its [try]: [None] when the
      loop ran to its end, [Some (url, e)] when [_get] raised [e] with the
      loop variable bound to [url]. *)
Fixpoint checkService_loop (urls : list string) (hostname : option string)
    : M (option (string * exn)) :=
    match urls with
    | [] => ret None
    | url :: urls' =>
        r <- attempt (_get url hostname) ;;
        match r with
        | Raise e => ret (Some (url, e))
        | Ok _ => checkService_loop urls' hostname
        end
    end.

Definition checkService (urls : list string) (hostname : option string) : M bool :=
    emit (EvCall (CheckService urls hostname)) ;;
    r <- checkService_loop urls hostname ;;
    match r with
    | None => ret true
    | Some (url, HTTPError code) =>
        logging ERROR "checkService failed (code {0}): {1}" [LInt code; LStr url] ;;
        ret false
    | Some (url, e) =>
        logging ERROR "checkService failed (url: '{0}'): {1}" [LStr url; LExn e] ;;
        ret false
    end.

  (** *** The ownership client *)

  (** [json.loads(b.decode('utf8'))]. *)
Definition json_loads (b : option json) : M json :=
    match b with
    | Some v => ret v
    | None => raise ValueError
    end.

Definition getMetadata (cache : bool) : M json :=
    emit (EvCall (GetMetadata cache)) ;;
    m <- get_metadata ;;
    if negb (Py.is_None m) && cache then ret m
    else
      b <- _get "http://169.254.169.254/metadata/v1.json" None ;;
      v <- json_loads b ;;
      set_metadata v ;;
      ret v.

Definition getDropletID : M json :=
    m <- getMetadata true ;;
    lift (Py.subscript m (KStr "droplet_id")).

Definition hasFloatingIP (ip apiKey : string) : M bool :=
    emit (EvCall (HasFloatingIP ip apiKey)) ;;
    dropletId <- getDropletID ;;
    req <- lift (Urllib.Request ("https://api.digitalocean.com/v2/floating_ips/" ++ ip)) ;;
    let req := add_header req "Authorization" ("Bearer " ++ apiKey) in
    resp <- do_urlopen req None 20 ;;
    b <- read resp ;;
    data <- json_loads b ;;
    owner <- lift (_item data [KStr "floating_ip"; KStr "droplet"; KStr "id"] JNull) ;;
    ret (Py.eq dropletId owner).

Definition takeFloatingIP (floatingIP apiKey : string) : M unit :=
    emit (EvCall (TakeFloatingIP floatingIP apiKey)) ;;
    dropletId <- getDropletID ;;
    req <- lift (Urllib.Request ("https://api.digitalocean.com/v2/floating_ips/"
                                 ++ floatingIP ++ "/actions")) ;;
    let req := add_header req "Content-type" "application/json" in
    let req := add_header req "Authorization" ("Bearer " ++ apiKey) in
    resp <- do_urlopen req
              (Some (JDict [("type", JStr "assign"); ("droplet_id", dropletId)])) 20 ;;
    if negb ((status resp =? 200) || (status resp =? 201)) then
      b <- read resp ;;
      logging ERROR "response body: {0}" [LBody b] ;;
      raise (Exception_ (Fmt "Failed to acquire floating IP (code {0})"
                             [AInt (status resp)]))
    else
      logging INFO "Acquired the floating IP {0}" [LStr floatingIP].

  (** *** [main] *)

  (** [main] up to [watchdog.start()]: reading and validating the
      settings.  [None] is [return 0]. *)
Definition main_config (env : environ) : M (option config) :=
    let mode := environ_item env "FAILOVER_MODE" in
    let apiKey := environ_item env "API_KEY" in
    let floatingIP := environ_item env "FLOATING_IP" in
    let checkURLs := environ_item env "FAILOVER_CHECK" in
    let mainURLs := environ_item env "FAILOVER_MAIN" in
    let mainHost := environ_item env "FAILOVER_MAIN_HOST" in
    match mode with
    | None =>
        logging INFO "Not set up for automatic failover, exiting" [] ;;
        ret None
    | Some mode =>
        match apiKey with
        | None => raise (Exception_ (Fmt "Missing 'API_KEY'!" []))
        | Some apiKey =>
            match floatingIP with
            | None => raise (Exception_ (Fmt "Missing 'FLOATING_IP'!" []))
            | Some floatingIP =>
                let checkURLs :=
                  if (mode =? "main")%string
                     && (match mainURLs with Some _ => true | None => false end)
                  then mainURLs else checkURLs in
                match checkURLs with
                | None => raise (Exception_ (Fmt "Missing 'FAILOVER_CHECK' url(s)!" []))
                | Some checkURLs =>
                    ret (Some {| mode := mode;
                                 apiKey := apiKey;
                                 floatingIP := floatingIP;
                                 checkURLs := Py.split "|" checkURLs;
                                 mainURLs := option_map (Py.split "|") mainURLs;
                                 mainHost := mainHost |})
                end
            end
        end
    end.

  (** One pass through the body of [while True]. *)
Definition cycle (cfg : config) : M unit :=
    watchdog WdKick ;;
    healthy <- checkService (checkURLs cfg) None ;;
    (if healthy then
       if (mode cfg =? "main")%string then
         owned <- hasFloatingIP (floatingIP cfg) (apiKey cfg) ;;
         if negb owned then
           logging INFO "Lost control of the floating IP, getting it back" [] ;;
           takeFloatingIP (floatingIP cfg) (apiKey cfg)
         else
           logging DEBUG "We're in control of the floating IP {0}" [LStr (floatingIP cfg)]
       else if (mode cfg =? "standby")%string then
         owned <- hasFloatingIP (floatingIP cfg) (apiKey cfg) ;;
         if negb owned then
           match mainURLs cfg with
           | None => raise (Exception_ (Fmt "Missing 'FAILOVER_MAIN' url(s)!" []))
           | Some mainURLs =>
               up <- checkService mainURLs (mainHost cfg) ;;
               if negb up then
                 logging WARNING "MAIN SERVER IS DOWN, TAKING OVER!" [] ;;
                 takeFloatingIP (floatingIP cfg) (apiKey cfg)
               else
                 logging DEBUG "Main server up and running" []
           end
         else
           logging DEBUG "We're in control of the floating IP {0}" [LStr (floatingIP cfg)]
       else
         raise (Exception_ (Fmt "Unsupported failover mode! Expected 'main' or 'standby'" []))
     else
       logging ERROR "Service not running!" []) ;;
    sleep 60.

  (** The first [n] passes of [while True]: [Ok tt] when all of them ran
      to their end, the loop still going. *)
Fixpoint cycles (n : nat) (cfg : config) : M unit :=
    match n with
    | O => ret tt
    | S n' => cycle cfg ;; cycles n' cfg
    end.

  (** [main], followed for at most [n] cycles.  The [finally] clause runs
      when a cycle raises; the loop has no other exit. *)
Definition main (n : nat) (env : environ) : M main_result :=
    c <- main_config env ;;
    match c with
    | None => ret (Returned 0)
    | Some cfg =>
        watchdog WdStart ;;
        r <- attempt (cycles n cfg) ;;
        match r with
        | Raise e => watchdog WdStop ;; raise e
        | Ok _ => ret StillRunning
        end
    end.

End Program.

Arguments State {World} world _metadata.
Arguments world {World} s.
Arguments _metadata {World} s.

(** ** Reading a trace *)

(** The function calls of a trace, in order. *)
Definition calls (ev : list event) : list call :=
  flat_map (fun e => match e with EvCall c => [c] | _ => [] end) ev.

(** The requests of a trace with what came back, in order. *)
Definition requests (ev : list event) : list (request * result response) :=
  flat_map (fun e => match e with EvRequest req _ _ out => [(req, out)] | _ => [] end) ev.

Definition is_acquire (c : call) : bool :=
  match c with TakeFloatingIP _ _ => true | _ => false end.

Definition is_ownership_query (c : call) : bool :=
  match c with HasFloatingIP _ _ => true | _ => false end.

Definition is_check (c : call) : bool :=
  match c with CheckService _ _ => true | _ => false end.

(** How many times [takeFloatingIP] was called. *)
Definition acquire_calls (ev : list event) : nat :=
  length (filter is_acquire (calls ev)).

(** How many times [hasFloatingIP] was called. *)
Definition ownership_queries (ev : list event) : nat :=
  length (filter is_ownership_query (calls ev)).

(** The calls of [checkService], in order. *)
Definition check_calls (ev : list event) : list call :=
  filter is_check (calls ev).

(** The request [_get url hostname] sends. *)
Definition probe (hostname : option string) (url : string) : request :=
  match hostname with
  | Some h => {| url := Urllib.full_url url; headers := [("Host", h)] |}
  | None => {| url := Urllib.full_url url; headers := [] |}
  end.

(** A request is answered successfully when [_get] returns after it:
    [urlopen] did not raise, the status is 200 and the body could be
    read. *)
Definition succeeded (out : result response) : bool :=
  match out with
  | Ok resp =>
      (status resp =? 200) && match body resp with Ok _ => true | Raise _ => false end
  | Raise _ => false
  end.

(** What [_get] makes of the outcome of its request. *)
Definition _get_result (url : string) (out : result response) : result (option json) :=
  match out with
  | Raise e => Raise e
  | Ok resp =>
      if status resp =? 200 then body resp
      else Raise (Exception_ (Fmt "Failed to GET '{0}' (code {1})"
                                  [AStr url; AInt (status resp)]))
  end.

(** The record [checkService] logs when [_get url] raised [e]. *)
Definition checkService_log (url : string) (e : exn) : event :=
  match e with
  | HTTPError code =>
      EvLog ERROR "checkService failed (code {0}): {1}" [LInt code; LStr url]
  | _ => EvLog ERROR "checkService failed (url: '{0}'): {1}" [LStr url; LExn e]
  end.

Definition metadata_url : string := "http://169.254.169.254/metadata/v1.json".

(** The request [hasFloatingIP ip apiKey] sends. *)
Definition ownership_request (ip apiKey : string) : request :=
  {| url := Urllib.full_url ("https://api.digitalocean.com/v2/floating_ips/" ++ ip);
     headers := [("Authorization", ("Bearer " ++ apiKey)%string)] |}.

(** The request [takeFloatingIP floatingIP apiKey] sends, and its body for
    the droplet [id]. *)
Definition assign_request (floatingIP apiKey : string) : request :=
  {| url := Urllib.full_url
              ("https://api.digitalocean.com/v2/floating_ips/" ++ floatingIP ++ "/actions");
     headers := [("Content-type", "application/json");
                 ("Authorization", ("Bearer " ++ apiKey)%string)] |}.

Definition assign_body (id : json) : option json :=
  Some (JDict [("type", JStr "assign"); ("droplet_id", id)]).

Definition owner_path : list key := [KStr "floating_ip"; KStr "droplet"; KStr "id"].

Definition missing_peer : exn := Exception_ (Fmt "Missing 'FAILOVER_MAIN' url(s)!" []).

(** A run with the events [pre] before it. *)
Definition after {World A} (pre : list event)
           (x : result A * state World * list event) : result A * state World * list event :=
  match x with
  | (r, s, ev) => (r, s, pre ++ ev)
  end.

(** A run that goes on to [time.sleep(60)] unless it raised. *)
Definition then_sleep {World} (x : result unit * state World * list event)
  : result unit * state World * list event :=
  match x with
  | (Ok _, s, ev) => (Ok tt, s, ev ++ [EvSleep 60])
  | (Raise e, s, ev) => (Raise e, s, ev)
  end.

Definition log_in_control (cfg : config) : event :=
  EvLog DEBUG "We're in control of the floating IP {0}" [LStr (floatingIP cfg)].

Definition log_lost : event :=
  EvLog INFO "Lost control of the floating IP, getting it back" [].

Definition log_taking_over : event :=
  EvLog WARNING "MAIN SERVER IS DOWN, TAKING OVER!" [].

(** ** More ways to read a trace *)

(** The watchdog operations of a trace, in order. *)
Definition watchdog_ops (ev : list event) : list watchdog_op :=
  flat_map (fun e => match e with EvWatchdog op => [op] | _ => [] end) ev.

(** The sleeps of a trace, in seconds. *)
Definition pauses (ev : list event) : list Z :=
  flat_map (fun e => match e with EvSleep n => [n] | _ => [] end) ev.

(** The timeouts of the requests of a trace. *)
Definition timeouts (ev : list event) : list Z :=
  flat_map (fun e => match e with EvRequest _ _ t _ => [t] | _ => [] end) ev.

(** The log records of a trace. *)
Definition log_records (ev : list event) : list event :=
  filter (fun e => match e with EvLog _ _ _ => true | _ => false end) ev.

Definition api_base : string := "https://api.digitalocean.com/v2/floating_ips/".

Definition has_header (name : string) (req : request) : bool :=
  existsb (fun kv => String.eqb (fst kv) name) (headers req).

(** What the functions called inside a cycle can do for the floating IP
    [ip] and the key [key]: enter a counted function, log, and send one of
    three kinds of request, each with a timeout of 20 seconds: a GET built
    by [_get], the ownership GET, the assignment POST.  They neither touch
    the watchdog nor sleep. *)
Definition inner_event (ip key : string) (e : event) : Prop :=
  match e with
  | EvCall _ => True
  | EvLog _ _ _ => True
  | EvRequest req d t _ =>
      t = 20 /\
      ((d = None /\ exists h u, req = probe h u) \/
       (d = None /\ req = ownership_request ip key) \/
       (exists id, d = assign_body id /\ req = assign_request ip key))
  | EvWatchdog _ => False
  | EvSleep _ => False
  end.

(** A request that carries the API key or a body goes to the API. *)
Definition confined (e : event) : Prop :=
  match e with
  | EvRequest req d _ _ =>
      has_header "Authorization" req = true \/ d <> None ->
      String.prefix api_base (url req) = true
  | _ => True
  end.

(** Every event of every run of [m] satisfies [P]. *)
Definition always {World A} (P : event -> Prop) (m : M World A) : Prop :=
  forall s r s' ev, m s = (r, s', ev) -> Forall P ev.

(** [reaches data ks leaf]: following the keys [ks] through nested
    dicts, each with distinct keys and any number of items, leads from
    [data] to [leaf]. *)
Inductive reaches : json -> list string -> json -> Prop :=
| reaches_here (v : json) : reaches v [] v
| reaches_down (d : list (string * json)) (k : string) (v : json)
               (ks : list string) (leaf : json) :
    NoDup (map fst d) -> In (k, v) d -> reaches v ks leaf ->
    reaches (JDict d) (k :: ks) leaf.

(** The trace of one cycle: the kick, the work, and the sleep if the cycle
    ran to its end. *)
Definition cycle_trace (slept : bool) (work : list event) : list event :=
  EvWatchdog WdKick :: work ++ (if slept then [EvSleep 60] else []).

(** ** The watchdog thread *)

(** [Watchdog] is a thread that shares two [threading.Event] flags with
    the thread that calls [kick] and [stop].  The model follows the thread
    of [run] statement by statement, interleaved with the moves of the
    other thread and with the running out of the timeout of
    [self._kick.wait(self.timeout)]; how long anything takes is left to
    the schedule. *)
Module Watchdog.

  (** What a call of [self.callback()] does: return, or raise
      [SystemExit] as [sys.exit] does. *)
Inductive callback : Type :=
| Returns
| Exits (code : Z).

  (** [onWatchdogTimeout]: a fatal log record, then [sys.exit(1)]. *)
Definition onWatchdogTimeout : callback := Exits 1.

  (** Where the thread of [run] stands. *)
Inductive place : Type :=
| AtTest      (* about to evaluate [not self._stop.is_set()] *)
| InWait      (* inside [self._kick.wait(self.timeout)] *)
| Woken       (* [wait] returned [True]: about to [self._kick.clear()] *)
| Expired     (* [wait] returned [False]: about to call [self.callback()] *)
| Finished    (* the loop ended, [run] returned *)
| Died (code : Z).  (* the callback raised [SystemExit]: the thread ended *)

Record thread : Type := {
  _kick : bool;
  _stop : bool;
  at_ : place;
  fired : nat      (* the calls of the callback begun so far *)
}.

Inductive move : Type :=
| SetKick     (* another thread runs [self._kick.set()] *)
| SetStop     (* another thread runs [self._stop.set()] *)
| Elapse      (* the timeout of the wait in progress runs out *)
| Step.       (* the watchdog thread runs its next statement *)


Definition stop : list move := [SetStop; SetKick].

  (** [start()]: both flags cleared, the thread at the head of [run]. *)
Definition started : thread :=
  {| _kick := false; _stop := false; at_ := AtTest; fired := 0 |}.

Definition goto (p : place) (w : thread) : thread :=
  {| _kick := _kick w; _stop := _stop w; at_ := p; fired := fired w |}.

Definition move1 (cb : callback) (m : move) (w : thread) : thread :=
  match m with
  | SetKick => {| _kick := true; _stop := _stop w; at_ := at_ w; fired := fired w |}
  | SetStop => {| _kick := _kick w; _stop := true; at_ := at_ w; fired := fired w |}
  | Elapse =>
      match at_ w with
      | InWait => if _kick w then w else goto Expired w
      | _ => w
      end
  | Step =>
      match at_ w with
      | AtTest => if _stop w then goto Finished w else goto InWait w
      | InWait => if _kick w then goto Woken w else w
      | Woken => {| _kick := false; _stop := _stop w; at_ := AtTest; fired := fired w |}
      | Expired =>
          {| _kick := _kick w; _stop := _stop w;
             at_ := match cb with Returns => AtTest | Exits c => Died c end;
             fired := S (fired w) |}
      | Finished => w
      | Died _ => w
      end
  end.

  (** The thread after a schedule of moves. *)
Fixpoint run (cb : callback) (sched : list move) (w : thread) : thread :=
  match sched with
  | [] => w
  | m :: rest => run cb rest (move1 cb m w)
  end.




End Watchdog.

(** The value of the variable [name] in the environment, if it is set. *)
Fixpoint getenv (name : string) (env : environ) : option string :=
  match env with
  | [] => None
  | (k, v) :: env' => if String.eqb name k then Some v else getenv name env'
  end.

Definition missing_api_key : exn := Exception_ (Fmt "Missing 'API_KEY'!" []).

Definition missing_floating_ip : exn := Exception_ (Fmt "Missing 'FLOATING_IP'!" []).

Definition missing_check : exn := Exception_ (Fmt "Missing 'FAILOVER_CHECK' url(s)!" []).

Definition unsupported_mode : exn :=
  Exception_ (Fmt "Unsupported failover mode! Expected 'main' or 'standby'" []).

Definition acquire_failed (code : Z) : exn :=
  Exception_ (Fmt "Failed to acquire floating IP (code {0})" [AInt code]).

(** A computation that calls none of the counted functions and leaves
    [_metadata] alone. *)
Definition quiet {World A} (m : M World A) : Prop :=
  forall s r s' ev, m s = (r, s', ev) -> calls ev = [] /\ _metadata s' = _metadata s.

(** A computation that leaves [_metadata] alone once it is set. *)
Definition keeps {World A} (m : M World A) : Prop :=
  forall s r s' ev, m s = (r, s', ev) -> _metadata s <> JNull -> _metadata s' = _metadata s.

(** ** Scenarios *)

(** Concrete networks and settings on which the program is run below. *)
Module Scenario.

  (** A network that answers by URL from a table and refuses every other
      connection.  It has no state of its own. *)
Definition site : Type := list (string * result response).

Fixpoint answer (tbl : site) (u : string) : result response :=
    match tbl with
    | [] => Raise (URLError "Connection refused")
    | (u', out) :: tbl' => if String.eqb u u' then out else answer tbl' u
    end.

Definition urlopen (tbl : site) (req : request) (data : option json) (timeout : Z)
             (w : unit) : result response * unit :=
    (answer tbl (url req), w).

Definition start : state unit := State tt JNull.

Definition ok_page : result response := Ok {| status := 200; body := Ok None |}.

Definition metadata_page (v : json) : string * result response :=
    (metadata_url, Ok {| status := 200; body := Ok (Some v) |}).

Definition self_url : string := "http://localhost:8080/health".
Definition peer_url : string := "https://10.0.0.1/health".
Definition ip_url : string := "https://api.digitalocean.com/v2/floating_ips/203.0.113.5".
Definition take_url : string :=
    "https://api.digitalocean.com/v2/floating_ips/203.0.113.5/actions".

  (** The floating IP as the API reports it, assigned to droplet [id]. *)
Definition owned_by (id : Z) : string * result response :=
    (ip_url,
     Ok {| status := 200;
           body := Ok (Some (JDict [("floating_ip",
                                 JDict [("ip", JStr "203.0.113.5");
                                        ("droplet", JDict [("id", JInt id)])])])) |}).

Definition accepted : string * result response :=
    (take_url, Ok {| status := 201; body := Ok (Some (JDict [])) |}).

Definition this_droplet : string * result response :=
    metadata_page (JDict [("droplet_id", JInt 7); ("hostname", JStr "standby-1")]).

Definition common : environ :=
    [("API_KEY", "secret"); ("FLOATING_IP", "203.0.113.5"); ("FAILOVER_CHECK", self_url)].

Definition main_env : environ := ("FAILOVER_MODE", "main") :: common.

Definition main_env_override : environ :=
    ("FAILOVER_MODE", "main") :: ("FAILOVER_MAIN", "http://a/|http://b/") :: common.

Definition standby_env : environ :=
    ("FAILOVER_MODE", "standby") :: ("FAILOVER_MAIN", peer_url)
      :: ("FAILOVER_MAIN_HOST", "www.example.org") :: common.

  (** A standby node whose [FAILOVER_MAIN] was never set. *)
Definition standby_env_no_peer : environ := ("FAILOVER_MODE", "standby") :: common.

Definition main_cfg : config :=
    {| mode := "main"; apiKey := "secret"; floatingIP := "203.0.113.5";
       checkURLs := [self_url]; mainURLs := None; mainHost := None |}.

Definition standby_cfg : config :=
    {| mode := "standby"; apiKey := "secret"; floatingIP := "203.0.113.5";
       checkURLs := [self_url]; mainURLs := Some [peer_url];
       mainHost := Some "www.example.org" |}.

Definition standby_cfg_no_peer : config :=
    {| mode := "standby"; apiKey := "secret"; floatingIP := "203.0.113.5";
       checkURLs := [self_url]; mainURLs := None; mainHost := None |}.

  (** This node is up, the peer is down, the IP is with droplet 9. *)
Definition peer_down : site :=
    [(self_url, ok_page); this_droplet; owned_by 9; accepted].

  (** Both nodes are up, the IP is with droplet 9. *)
Definition both_up : site :=
    [(self_url, ok_page); (peer_url, ok_page); this_droplet; owned_by 9; accepted].

  (** This node is up and holds the IP. *)
Definition holding : site :=
    [(self_url, ok_page); this_droplet; owned_by 7].

  (** This node is down. *)
Definition self_down : site :=
    [(self_url, Raise (HTTPError 503)); this_droplet; owned_by 9; accepted].

  (** This node is up, the API cannot be reached. *)
Definition api_down : site :=
    [(self_url, ok_page); this_droplet].

  (** This node is up, the API refuses the assignment. *)
Definition refused : site :=
    [(self_url, ok_page); this_droplet; owned_by 9;
     (take_url, Ok {| status := 202; body := Ok (Some (JDict [("id", JStr "forbidden")])) |})].

  (** The API answers with a document that says nothing of the IP. *)
Definition odd_shape : site :=
    [(self_url, ok_page); this_droplet;
     (ip_url, Ok {| status := 200; body := Ok (Some (JDict [("message", JStr "ok")])) |})].

  (** The metadata service answers with the JSON document [null]. *)
Definition null_metadata : site :=
    [(self_url, ok_page); metadata_page JNull; owned_by 9].

  (** The process once it has read the metadata of [this_droplet]. *)
Definition identified : state unit :=
  State tt (JDict [("droplet_id", JInt 7); ("hostname", JStr "standby-1")]).

  (** Settings with a mode the program does not know. *)
Definition other_cfg : config :=
  {| mode := "primary"; apiKey := "secret"; floatingIP := "203.0.113.5";
     checkURLs := [self_url]; mainURLs := None; mainHost := None |}.

  (** A cycle of a main node that is up and finds the IP with droplet 9. *)
Definition reclaim : result unit * state unit * list event :=
  cycle unit (urlopen peer_down) main_cfg start.

  (** [main] on a main node that cannot reach the API, for three cycles. *)
Definition failing_run : result main_result * state unit * list event :=
  main unit (urlopen api_down) 3 main_env start.

  (** [main] on a main node that holds the IP, for two cycles. *)
Definition steady_run : result main_result * state unit * list event :=
  main unit (urlopen holding) 2 main_env start.

  (** This node answers 200 and then stalls while the body is read. *)
Definition stalls : site :=
  [(self_url, Ok {| status := 200; body := Raise (URLError "timed out") |})].

  (** Three URLs, the second of which fails. *)
Definition second_fails : site :=
    [("http://a/", ok_page); ("http://b/", Ok {| status := 204; body := Ok None |});
     ("http://c/", ok_page)].

End Scenario.

(** ** Properties *)

Lemma calls_app (ev1 ev2 : list event) : calls (ev1 ++ ev2) = calls ev1 ++ calls ev2.
Proof. unfold calls. apply flat_map_app. Qed.

Lemma requests_app (ev1 ev2 : list event) :
  requests (ev1 ++ ev2) = requests ev1 ++ requests ev2.
Proof. unfold requests. apply flat_map_app. Qed.

Lemma succeeded_get_result (u : string) (out : result response) :
  succeeded out = true <-> exists b, _get_result u out = Ok b.
Proof.
  destruct out as [resp | e]; simpl.
  - destruct (status resp =? 200), (body resp) as [b | e]; simpl;
      split; intros H; try discriminate; eauto;
      destruct H as [b' H]; discriminate.
  - split; [discriminate | intros [b H]; discriminate].
Qed.

(** [Request] accepts the URLs of the API and of the metadata service,
    whatever the floating IP. *)
Lemma Request_api (rest : string) :
  Urllib.Request ("https://api.digitalocean.com/v2/floating_ips/" ++ rest)
  = Ok {| url := Urllib.full_url ("https://api.digitalocean.com/v2/floating_ips/" ++ rest);
          headers := [] |}.
Proof. reflexivity. Qed.

(** Whatever follows it, the URL of a request made for a URL of the API
    starts with the base of the API. *)
Lemma full_url_api (rest : string) :
  String.prefix api_base (Urllib.full_url (api_base ++ rest)) = true.
Proof.
  unfold Urllib.full_url.
  change (Urllib.unwrap (api_base ++ rest)) with (api_base ++ Urllib.rstrip rest)%string.
  destruct (Urllib.rstrip rest) as [| c r].
  - reflexivity.
  - change (Urllib.ends_with "#" (api_base ++ String c r))
      with (Urllib.ends_with "#" (String c r)).
    destruct (Urllib.ends_with "#" (String c r)).
    + change (Urllib.drop_last (api_base ++ String c r))
        with (api_base ++ Urllib.drop_last (String c r))%string.
      cbn. destruct r; [reflexivity |]. destruct (Urllib.drop_last (String a r)); reflexivity.
    + reflexivity.
Qed.

Lemma Request_metadata :
  Urllib.Request metadata_url = Ok {| url := metadata_url; headers := [] |}.
Proof. reflexivity. Qed.


Section Properties.

Variable World : Type.
Variable urlopen : request -> option json -> Z -> World -> result response * World.

#[local] Abbreviation _get := (_get World urlopen).
#[local] Abbreviation checkService_loop := (checkService_loop World urlopen).
#[local] Abbreviation checkService := (checkService World urlopen).
#[local] Abbreviation getMetadata := (getMetadata World urlopen).
#[local] Abbreviation getDropletID := (getDropletID World urlopen).
#[local] Abbreviation hasFloatingIP := (hasFloatingIP World urlopen).
#[local] Abbreviation takeFloatingIP := (takeFloatingIP World urlopen).
#[local] Abbreviation main_config := (main_config World).
#[local] Abbreviation cycle := (cycle World urlopen).
#[local] Abbreviation cycles := (cycles World urlopen).
#[local] Abbreviation main := (main World urlopen).

(** *** Computations that call nothing and leave [_metadata] alone *)

Lemma bind_inv {A B} (m : M World A) (f : A -> M World B) s r s' ev :
  bind World m f s = (r, s', ev) ->
  (exists a s1 ev1 ev2,
      m s = (Ok a, s1, ev1) /\ f a s1 = (r, s', ev2) /\ ev = ev1 ++ ev2) \/
  (exists e, m s = (Raise e, s', ev) /\ r = Raise e).
Proof.
  unfold bind. destruct (m s) as [[[a | e] s1] ev1].
  - destruct (f a s1) as [[r2 s2] ev2] eqn:E. intros H. inversion H; subst.
    left. exists a, s1, ev1, ev2. auto.
  - intros H. inversion H; subst. right. exists e. auto.
Qed.

Lemma quiet_ret {A} (a : A) : quiet (ret World a).
Proof. intros s r s' ev H. inversion H. auto. Qed.

Lemma quiet_raise {A} (e : exn) : quiet (@raise World A e).
Proof. intros s r s' ev H. inversion H. auto. Qed.

Lemma quiet_lift {A} (r : result A) : quiet (lift World r).
Proof. intros s r' s' ev H. inversion H. auto. Qed.

Lemma quiet_logging l t a : quiet (logging World l t a).
Proof. intros s r s' ev H. inversion H. auto. Qed.

Lemma quiet_watchdog op : quiet (watchdog World op).
Proof. intros s r s' ev H. inversion H. auto. Qed.

Lemma quiet_sleep n : quiet (sleep World n).
Proof. intros s r s' ev H. inversion H. auto. Qed.

Lemma quiet_json_loads b : quiet (json_loads World b).
Proof. destruct b; [apply quiet_ret | apply quiet_raise]. Qed.

Lemma quiet_do_urlopen req data t : quiet (do_urlopen World urlopen req data t).
Proof.
  intros s r s' ev H. unfold do_urlopen in H.
  destruct (urlopen req data t (world s)). inversion H. auto.
Qed.

Lemma quiet_bind {A B} (m : M World A) (f : A -> M World B) :
  quiet m -> (forall a, quiet (f a)) -> quiet (bind World m f).
Proof.
  intros Hm Hf s r s' ev H.
  apply bind_inv in H. destruct H as [(a & s1 & ev1 & ev2 & H1 & H2 & ->) | (e & H1 & _)].
  - apply Hm in H1. apply Hf in H2. destruct H1 as [C1 M1], H2 as [C2 M2].
    rewrite calls_app, C1, C2. split; [reflexivity | congruence].
  - apply Hm in H1. exact H1.
Qed.

Lemma quiet_attempt {A} (m : M World A) : quiet m -> quiet (attempt World m).
Proof.
  intros Hm s r s' ev H. unfold attempt in H.
  destruct (m s) as [[r1 s1] ev1] eqn:E. inversion H; subst. eapply Hm; eauto.
Qed.

Lemma quiet_keeps {A} (m : M World A) : quiet m -> keeps m.
Proof. intros Hm s r s' ev H _. apply (Hm _ _ _ _ H). Qed.

Lemma keeps_bind {A B} (m : M World A) (f : A -> M World B) :
  keeps m -> (forall a, keeps (f a)) -> keeps (bind World m f).
Proof.
  intros Hm Hf s r s' ev H Hs.
  apply bind_inv in H. destruct H as [(a & s1 & ev1 & ev2 & H1 & H2 & ->) | (e & H1 & _)].
  - pose proof (Hm _ _ _ _ H1 Hs) as M1.
    assert (Hs1 : _metadata s1 <> JNull) by congruence.
    rewrite (Hf _ _ _ _ _ H2 Hs1). exact M1.
  - apply (Hm _ _ _ _ H1 Hs).
Qed.

Lemma keeps_emit (e : event) : keeps (emit World e).
Proof. intros s r s' ev H _. inversion H. reflexivity. Qed.

Lemma keeps_attempt {A} (m : M World A) : keeps m -> keeps (attempt World m).
Proof.
  intros Hm s r s' ev H. unfold attempt in H.
  destruct (m s) as [[r1 s1] ev1] eqn:E. inversion H; subst. eapply Hm; eauto.
Qed.

Ltac quiet_step :=
  first
    [ apply quiet_ret | apply quiet_raise | apply quiet_lift | apply quiet_logging
    | apply quiet_watchdog | apply quiet_sleep | apply quiet_json_loads
    | apply quiet_do_urlopen | apply quiet_attempt
    | apply quiet_bind; [| intros ?]
    | match goal with
      | |- quiet (if ?b then _ else _) => destruct b
      | |- quiet (match ?x with _ => _ end) => destruct x
      end ].

Ltac quiet_tac := repeat quiet_step.

(** *** The health probe *)

(** [_get] on a URL that [Request] accepts sends one request and turns
    what comes back into its result. *)
Lemma _get_run (u : string) (h : option string) (s : state World) :
  Urllib.has_type u = true ->
  _get u h s =
  (_get_result u (fst (urlopen (probe h u) None 20 (world s))),
   State (snd (urlopen (probe h u) None 20 (world s))) (_metadata s),
   [EvRequest (probe h u) None 20 (fst (urlopen (probe h u) None 20 (world s)))]).
Proof.
  intros Hu.
  unfold _get, bind, lift, read, do_urlopen, raise, ret, probe, add_header,
    Urllib.Request.
  rewrite Hu.
  destruct h as [h |]; simpl;
    match goal with |- context [urlopen ?r None 20 ?w] =>
      destruct (urlopen r None 20 w) as [[resp | e] w'] end; simpl;
    try reflexivity;
    destruct (status resp =? 200); simpl; try reflexivity;
    destruct (body resp); reflexivity.
Qed.

(** [_get] on a URL that [Request] rejects raises [ValueError] and sends
    nothing. *)
Lemma _get_rejected (u : string) (h : option string) (s : state World) :
  Urllib.has_type u = false ->
  _get u h s = (Raise ValueError, s, []).
Proof.
  intros Hu. unfold _get, bind, lift, Urllib.Request. rewrite Hu. reflexivity.
Qed.

(** The loop of [checkService] never raises; it takes the URLs in order,
    every URL before the one it stopped at was accepted by [Request] and
    answered successfully, and it stops at the first URL that [Request]
    rejects or whose request fails. *)
Lemma checkService_loop_run (h : option string) (urls : list string) :
  forall s : state World,
  exists r s' ev,
    checkService_loop urls h s = (Ok r, s', ev) /\
    calls ev = [] /\
    _metadata s' = _metadata s /\
    match r with
    | None =>
        forallb Urllib.has_type urls = true /\
        map fst (requests ev) = map (probe h) urls /\
        forallb succeeded (map snd (requests ev)) = true
    | Some (u, e) =>
        exists pre post outs,
          urls = pre ++ u :: post /\
          forallb Urllib.has_type pre = true /\
          forallb succeeded outs = true /\
          ((Urllib.has_type u = false /\ e = ValueError /\
            map fst (requests ev) = map (probe h) pre /\
            map snd (requests ev) = outs) \/
           (exists out,
               Urllib.has_type u = true /\
               map fst (requests ev) = map (probe h) (pre ++ [u]) /\
               map snd (requests ev) = outs ++ [out] /\
               _get_result u out = Raise e))
    end.
Proof.
  induction urls as [| u urls IH]; intros s.
  - exists None, s, []. repeat split.
  - cbn [checkService_loop]. unfold bind at 1, attempt.
    destruct (Urllib.has_type u) eqn:Hu.
    2:{ rewrite (_get_rejected u h s Hu).
        exists (Some (u, ValueError)), s, []. cbn. repeat split.
        exists [], urls, []. cbn. repeat split. left. auto. }
    rewrite (_get_run u h s Hu).
    set (out := fst (urlopen (probe h u) None 20 (world s))).
    set (s1 := State (snd (urlopen (probe h u) None 20 (world s))) (_metadata s)).
    destruct (_get_result u out) as [b | e] eqn:Hout.
    + destruct (IH s1) as (r & s' & ev & Hrun & Hcalls & Hmeta & Hr).
      rewrite Hrun. exists r, s', ([EvRequest (probe h u) None 20 out] ++ ev).
      split; [reflexivity |]. split; [rewrite calls_app, Hcalls; reflexivity |].
      split; [rewrite Hmeta; reflexivity |].
      assert (Hs : succeeded out = true)
        by (apply (succeeded_get_result u); eauto).
      destruct r as [[u' e'] |].
      * destruct Hr as (pre & post & outs & Hurls & Hpre & Hall & Hlast).
        exists (u :: pre), post, (out :: outs).
        rewrite requests_app. cbn. rewrite Hurls, Hu, Hpre, Hs, Hall.
        repeat split; auto.
        destruct Hlast as [(Hu' & He & Hreq & Houts) | (out' & Hu' & Hreq & Houts & Hfail)].
        -- left. rewrite Hreq, Houts. auto.
        -- right. exists out'. rewrite Hreq, Houts. auto.
      * destruct Hr as (Hacc & Hreq & Hall).
        rewrite requests_app. cbn. rewrite Hu, Hacc, Hreq, Hs, Hall. repeat split.
    + exists (Some (u, e)), s1, [EvRequest (probe h u) None 20 out].
      cbn. repeat split.
      exists [], urls, []. cbn. repeat split. right. exists out. auto.
Qed.

(** The log record [checkService] writes when its loop stopped at [u] on
    the exception [e]. *)
Lemma checkService_run (h : option string) (urls : list string) (s : state World) :
  exists r s' ev0 logs,
    checkService_loop urls h s = (Ok r, s', ev0) /\
    calls logs = [] /\ requests logs = [] /\
    checkService urls h s =
      (Ok (match r with None => true | Some _ => false end), s',
       EvCall (CheckService urls h) :: ev0 ++ logs).
Proof.
  destruct (checkService_loop_run h urls s) as (r & s' & ev0 & Hrun & _).
  unfold checkService, bind, emit, logging, ret. rewrite Hrun.
  destruct r as [[u e] |].
  - exists (Some (u, e)), s', ev0, [checkService_log u e].
    repeat split; destruct e; cbn; rewrite ?app_nil_r; reflexivity.
  - exists None, s', ev0, []. repeat split; cbn; rewrite ?app_nil_r; reflexivity.
Qed.


(** *** The ownership client *)

(** With [_metadata] set, [getMetadata] answers from the cache. *)
Lemma getMetadata_cached (s : state World) :
  _metadata s <> JNull ->
  getMetadata true s = (Ok (_metadata s), s, [EvCall (GetMetadata true)]).
Proof.
  intros H. unfold getMetadata, bind, emit, get_metadata, ret.
  destruct (_metadata s) eqn:E; try congruence; reflexivity.
Qed.

(** Without it, [getMetadata] asks the metadata service and stores what
    it parsed. *)
Lemma getMetadata_fetch (cache : bool) (s : state World) :
  _metadata s = JNull \/ cache = false ->
  getMetadata cache s =
  let out := fst (urlopen (probe None metadata_url) None 20 (world s)) in
  let w' := snd (urlopen (probe None metadata_url) None 20 (world s)) in
  let ev := [EvCall (GetMetadata cache); EvRequest (probe None metadata_url) None 20 out] in
  match _get_result metadata_url out with
  | Ok (Some v) => (Ok v, State w' v, ev)
  | Ok None => (Raise ValueError, State w' (_metadata s), ev)
  | Raise e => (Raise e, State w' (_metadata s), ev)
  end.
Proof.
  intros H. unfold getMetadata, bind at 1 2, emit, get_metadata.
  assert (Hc : negb (Py.is_None (_metadata s)) && cache = false).
  { destruct H as [-> | ->]; [reflexivity | apply andb_false_r]. }
  rewrite Hc. unfold bind. fold metadata_url.
  rewrite (_get_run metadata_url None s eq_refl). cbn.
  destruct (_get_result metadata_url _) as [[v |] | e]; reflexivity.
Qed.

Lemma quiet__get (u : string) (h : option string) : quiet (_get u h).
Proof. unfold _get. quiet_tac. Qed.

Lemma quiet_checkService_loop (h : option string) (urls : list string) :
  quiet (checkService_loop urls h).
Proof.
  induction urls as [| u urls IH]; cbn [checkService_loop].
  - apply quiet_ret.
  - apply quiet_bind; [apply quiet_attempt, quiet__get |].
    intros [b | e]; [exact IH | apply quiet_ret].
Qed.

Lemma getMetadata_calls (cache : bool) (s s' : state World) r ev :
  getMetadata cache s = (r, s', ev) -> calls ev = [GetMetadata cache].
Proof.
  intros H.
  destruct (negb (Py.is_None (_metadata s)) && cache) eqn:Hc.
  - unfold getMetadata, bind, emit, get_metadata, ret in H. rewrite Hc in H.
    inversion H. reflexivity.
  - rewrite getMetadata_fetch in H.
    + cbn zeta in H.
      destruct (_get_result metadata_url _) as [[v |] | e]; inversion H; reflexivity.
    + destruct (_metadata s), cache; cbn in Hc; auto; discriminate.
Qed.

Lemma getMetadata_keeps : keeps (getMetadata true).
Proof.
  intros s r s' ev H Hm. rewrite (getMetadata_cached s Hm) in H. congruence.
Qed.

Lemma getDropletID_calls (s s' : state World) r ev :
  getDropletID s = (r, s', ev) -> calls ev = [GetMetadata true].
Proof.
  unfold getDropletID. intros H. apply bind_inv in H.
  destruct H as [(a & s1 & ev1 & ev2 & H1 & H2 & ->) | (e & H1 & _)].
  - apply getMetadata_calls in H1. apply quiet_lift in H2. destruct H2 as [H2 _].
    rewrite calls_app, H1, H2. reflexivity.
  - apply getMetadata_calls in H1. exact H1.
Qed.

Lemma getDropletID_keeps : keeps getDropletID.
Proof.
  unfold getDropletID. apply keeps_bind; [apply getMetadata_keeps |].
  intros m. apply quiet_keeps, quiet_lift.
Qed.

Lemma do_urlopen_run (req : request) (data : option json) (t : Z) (s : state World) :
  do_urlopen World urlopen req data t s =
  (fst (urlopen req data t (world s)),
   State (snd (urlopen req data t (world s))) (_metadata s),
   [EvRequest req data t (fst (urlopen req data t (world s)))]).
Proof. unfold do_urlopen. destruct (urlopen req data t (world s)); reflexivity. Qed.

(** [hasFloatingIP] once the droplet id is known: one request, then the
    comparison of the id with what [_item] finds in the answer. *)
Lemma hasFloatingIP_run (ip k : string) (s s1 : state World) id ev1 :
  getDropletID s = (Ok id, s1, ev1) ->
  hasFloatingIP ip k s =
  (match fst (urlopen (ownership_request ip k) None 20 (world s1)) with
   | Raise e => Raise e
   | Ok resp =>
       match body resp with
       | Raise e => Raise e
       | Ok None => Raise ValueError
       | Ok (Some data) =>
           match _item data owner_path JNull with
           | Ok owner => Ok (Py.eq id owner)
           | Raise e => Raise e
           end
       end
   end,
   State (snd (urlopen (ownership_request ip k) None 20 (world s1))) (_metadata s1),
   EvCall (HasFloatingIP ip k) :: ev1
     ++ [EvRequest (ownership_request ip k) None 20
           (fst (urlopen (ownership_request ip k) None 20 (world s1)))]).
Proof.
  intros Hd. unfold hasFloatingIP, bind at 1 2, emit. rewrite Hd.
  unfold bind at 1. rewrite Request_api. unfold lift at 1.
  unfold bind, read, json_loads, lift, ret, raise. rewrite do_urlopen_run.
  change (add_header _ "Authorization" _) with (ownership_request ip k).
  destruct (fst (urlopen (ownership_request ip k) None 20 (world s1))) as [resp | e];
    [| reflexivity].
  fold owner_path.
  destruct (body resp) as [[data |] | e]; try reflexivity.
  destruct (_item data owner_path JNull); cbn; rewrite ?app_nil_r; reflexivity.
Qed.

(** When the droplet id cannot be had, [hasFloatingIP] raises what
    [getDropletID] raised, before any request of its own. *)
Lemma hasFloatingIP_no_identity (ip k : string) (s s1 : state World) e ev1 :
  getDropletID s = (Raise e, s1, ev1) ->
  hasFloatingIP ip k s = (Raise e, s1, EvCall (HasFloatingIP ip k) :: ev1).
Proof.
  intros Hd. unfold hasFloatingIP, bind at 1 2, emit. rewrite Hd. reflexivity.
Qed.

Lemma hasFloatingIP_calls (ip k : string) (s s' : state World) r ev :
  hasFloatingIP ip k s = (r, s', ev) ->
  calls ev = [HasFloatingIP ip k; GetMetadata true].
Proof.
  destruct (getDropletID s) as [[[id | e] s1] ev1] eqn:Hd; intros H.
  - rewrite (hasFloatingIP_run ip k _ _ _ _ Hd) in H. inversion H; subst.
    apply getDropletID_calls in Hd.
    change (EvCall (HasFloatingIP ip k) :: ev1 ++ ?l)
      with ([EvCall (HasFloatingIP ip k)] ++ ev1 ++ l).
    rewrite !calls_app, Hd. reflexivity.
  - rewrite (hasFloatingIP_no_identity ip k _ _ _ _ Hd) in H. inversion H; subst.
    apply getDropletID_calls in Hd. cbn. fold (calls ev1). rewrite Hd. reflexivity.
Qed.

Lemma hasFloatingIP_keeps (ip k : string) : keeps (hasFloatingIP ip k).
Proof.
  unfold hasFloatingIP. apply keeps_bind; [apply keeps_emit |].
  intros _. apply keeps_bind; [apply getDropletID_keeps |].
  intros id. apply quiet_keeps. quiet_tac.
Qed.

Lemma takeFloatingIP_calls (ip k : string) (s s' : state World) r ev :
  takeFloatingIP ip k s = (r, s', ev) ->
  calls ev = [TakeFloatingIP ip k; GetMetadata true].
Proof.
  unfold takeFloatingIP. intros H. apply bind_inv in H.
  destruct H as [(a & s1 & ev1 & ev2 & H1 & H2 & ->) | (e & H1 & _)];
    [| inversion H1].
  inversion H1; subst. apply bind_inv in H2.
  destruct H2 as [(id & s2 & ev3 & ev4 & H2 & H3 & ->) | (e & H2 & _)].
  - apply getDropletID_calls in H2.
    assert (Hq : calls ev4 = []).
    { revert H3. match goal with |- ?m _ = _ -> _ =>
        assert (Q : quiet m) by quiet_tac end.
      intros H3. apply (Q _ _ _ _ H3). }
    change ([EvCall (TakeFloatingIP ip k)] ++ ev3 ++ ev4)
      with ([EvCall (TakeFloatingIP ip k)] ++ (ev3 ++ ev4)).
    rewrite !calls_app, H2, Hq. reflexivity.
  - apply getDropletID_calls in H2. cbn. fold (calls ev2). rewrite H2. reflexivity.
Qed.

Lemma takeFloatingIP_keeps (ip k : string) : keeps (takeFloatingIP ip k).
Proof.
  unfold takeFloatingIP. apply keeps_bind; [apply keeps_emit |].
  intros _. apply keeps_bind; [apply getDropletID_keeps |].
  intros id. apply quiet_keeps. quiet_tac.
Qed.

Lemma checkService_calls (urls : list string) (h : option string) (s s' : state World) r ev :
  checkService urls h s = (r, s', ev) -> calls ev = [CheckService urls h].
Proof.
  destruct (checkService_run h urls s) as (r0 & s0 & ev0 & logs & Hloop & Hlogs & _ & Hrun).
  destruct (checkService_loop_run h urls s) as (r1 & s1 & ev1 & Hloop' & Hcalls & _).
  rewrite Hloop in Hloop'. injection Hloop' as <- <- <-.
  rewrite Hrun. intros H. inversion H; subst.
  change (EvCall (CheckService urls h) :: ev0 ++ logs)
    with ([EvCall (CheckService urls h)] ++ ev0 ++ logs).
  rewrite !calls_app, Hcalls, Hlogs. reflexivity.
Qed.

Lemma checkService_keeps (urls : list string) (h : option string) :
  keeps (checkService urls h).
Proof.
  unfold checkService. apply keeps_bind; [apply keeps_emit |].
  intros _. apply quiet_keeps.
  apply quiet_bind; [apply quiet_checkService_loop |].
  intros [[u e] |]; [destruct e |]; quiet_tac.
Qed.

(** [checkService] never raises. *)
Lemma checkService_total (urls : list string) (h : option string) (s : state World) :
  exists b s' ev, checkService urls h s = (Ok b, s', ev).
Proof.
  destruct (checkService_run h urls s) as (r & s' & ev0 & logs & _ & _ & _ & Hrun).
  eauto.
Qed.

(** *** One cycle of the controller *)

Ltac unfold_cycle :=
  unfold cycle, bind, watchdog, logging, sleep, emit, raise, ret, after, then_sleep.

Lemma mode_main (cfg : config) :
  mode cfg = "main" -> (mode cfg =? "main")%string = true.
Proof. intros ->. reflexivity. Qed.

Lemma mode_standby (cfg : config) :
  mode cfg = "standby" ->
  (mode cfg =? "main")%string = false /\ (mode cfg =? "standby")%string = true.
Proof. intros ->. split; reflexivity. Qed.

Ltac use_mode H :=
  first [ rewrite (mode_main _ H)
        | rewrite (proj1 (mode_standby _ H)), (proj2 (mode_standby _ H)) ].

Ltac step := cbv beta iota delta [negb].

Ltac tidy := cbn; rewrite <- ?app_assoc; cbn; rewrite ?app_nil_r; try reflexivity.

(** The self check failed: nothing but a log record and the sleep. *)
Lemma cycle_unhealthy (cfg : config) (s s1 : state World) ev1 :
  checkService (checkURLs cfg) None s = (Ok false, s1, ev1) ->
  cycle cfg s =
  (Ok tt, s1,
   EvWatchdog WdKick :: ev1 ++ [EvLog ERROR "Service not running!" []; EvSleep 60]).
Proof. intros H. unfold_cycle. rewrite H. tidy. Qed.

(** The ownership query raised: the cycle raises the same exception and
    does nothing more. *)
Lemma cycle_query_raises (cfg : config) (s s1 s2 : state World) ev1 ev2 e :
  mode cfg = "main" \/ mode cfg = "standby" ->
  checkService (checkURLs cfg) None s = (Ok true, s1, ev1) ->
  hasFloatingIP (floatingIP cfg) (apiKey cfg) s1 = (Raise e, s2, ev2) ->
  cycle cfg s = (Raise e, s2, EvWatchdog WdKick :: ev1 ++ ev2).
Proof.
  intros [Hm | Hm] H1 H2; unfold_cycle; rewrite H1; use_mode Hm; step; rewrite H2; tidy.
Qed.

Lemma cycle_owned (cfg : config) (s s1 s2 : state World) ev1 ev2 :
  mode cfg = "main" \/ mode cfg = "standby" ->
  checkService (checkURLs cfg) None s = (Ok true, s1, ev1) ->
  hasFloatingIP (floatingIP cfg) (apiKey cfg) s1 = (Ok true, s2, ev2) ->
  cycle cfg s =
  (Ok tt, s2, EvWatchdog WdKick :: ev1 ++ ev2 ++ [log_in_control cfg; EvSleep 60]).
Proof.
  intros [Hm | Hm] H1 H2; unfold_cycle; rewrite H1; use_mode Hm; step; rewrite H2; tidy.
Qed.

Lemma cycle_main_lost (cfg : config) (s s1 s2 : state World) ev1 ev2 :
  mode cfg = "main" ->
  checkService (checkURLs cfg) None s = (Ok true, s1, ev1) ->
  hasFloatingIP (floatingIP cfg) (apiKey cfg) s1 = (Ok false, s2, ev2) ->
  cycle cfg s =
  after (EvWatchdog WdKick :: ev1 ++ ev2 ++ [log_lost])
        (then_sleep (takeFloatingIP (floatingIP cfg) (apiKey cfg) s2)).
Proof.
  intros Hm H1 H2. unfold_cycle. rewrite H1. use_mode Hm. step. rewrite H2. step.
  destruct (takeFloatingIP (floatingIP cfg) (apiKey cfg) s2) as [[[[] | e] s3] ev3]; tidy.
Qed.

Lemma cycle_standby_no_peer (cfg : config) (s s1 s2 : state World) ev1 ev2 :
  mode cfg = "standby" ->
  mainURLs cfg = None ->
  checkService (checkURLs cfg) None s = (Ok true, s1, ev1) ->
  hasFloatingIP (floatingIP cfg) (apiKey cfg) s1 = (Ok false, s2, ev2) ->
  cycle cfg s = (Raise missing_peer, s2, EvWatchdog WdKick :: ev1 ++ ev2).
Proof.
  intros Hm Hp H1 H2. unfold_cycle. rewrite H1. use_mode Hm. step. rewrite H2. step. rewrite Hp. tidy.
Qed.

Lemma cycle_standby_peer_up (cfg : config) (peer : list string)
      (s s1 s2 s3 : state World) ev1 ev2 ev3 :
  mode cfg = "standby" ->
  mainURLs cfg = Some peer ->
  checkService (checkURLs cfg) None s = (Ok true, s1, ev1) ->
  hasFloatingIP (floatingIP cfg) (apiKey cfg) s1 = (Ok false, s2, ev2) ->
  checkService peer (mainHost cfg) s2 = (Ok true, s3, ev3) ->
  cycle cfg s =
  (Ok tt, s3,
   EvWatchdog WdKick :: ev1 ++ ev2 ++ ev3
     ++ [EvLog DEBUG "Main server up and running" []; EvSleep 60]).
Proof.
  intros Hm Hp H1 H2 H3. unfold_cycle. rewrite H1. use_mode Hm. step. rewrite H2. step. rewrite Hp. step.
  rewrite H3. tidy.
Qed.

Lemma cycle_standby_peer_down (cfg : config) (peer : list string)
      (s s1 s2 s3 : state World) ev1 ev2 ev3 :
  mode cfg = "standby" ->
  mainURLs cfg = Some peer ->
  checkService (checkURLs cfg) None s = (Ok true, s1, ev1) ->
  hasFloatingIP (floatingIP cfg) (apiKey cfg) s1 = (Ok false, s2, ev2) ->
  checkService peer (mainHost cfg) s2 = (Ok false, s3, ev3) ->
  cycle cfg s =
  after (EvWatchdog WdKick :: ev1 ++ ev2 ++ ev3 ++ [log_taking_over])
        (then_sleep (takeFloatingIP (floatingIP cfg) (apiKey cfg) s3)).
Proof.
  intros Hm Hp H1 H2 H3. unfold_cycle. rewrite H1. use_mode Hm. step. rewrite H2. step. rewrite Hp. step.
  rewrite H3. step.
  destruct (takeFloatingIP (floatingIP cfg) (apiKey cfg) s3) as [[[[] | e] s4] ev4]; tidy.
Qed.

Lemma calls_call (c : call) (ev : list event) : calls (EvCall c :: ev) = c :: calls ev.
Proof. reflexivity. Qed.

Lemma calls_request req d t out (ev : list event) :
  calls (EvRequest req d t out :: ev) = calls ev.
Proof. reflexivity. Qed.

Lemma calls_log l t a (ev : list event) : calls (EvLog l t a :: ev) = calls ev.
Proof. reflexivity. Qed.

Lemma calls_watchdog op (ev : list event) : calls (EvWatchdog op :: ev) = calls ev.
Proof. reflexivity. Qed.

Lemma calls_sleep n (ev : list event) : calls (EvSleep n :: ev) = calls ev.
Proof. reflexivity. Qed.

Lemma calls_nil : calls [] = [].
Proof. reflexivity. Qed.

Ltac trace_calls :=
  repeat first
    [ rewrite calls_app | rewrite calls_call | rewrite calls_request
    | rewrite calls_log | rewrite calls_watchdog | rewrite calls_sleep
    | rewrite calls_nil ].

Ltac count_calls :=
  unfold acquire_calls, ownership_queries, check_calls,
    log_in_control, log_lost, log_taking_over;
  trace_calls;
  repeat match goal with H : calls _ = _ |- _ => rewrite H end;
  cbn; auto.

(** C2. In a cycle whose self check returns [False], whatever the mode,
    the peer settings and the state of the network, the cycle ends
    normally and [hasFloatingIP] and [takeFloatingIP] are not called: the
    only call is the self check. *)
Theorem unhealthy_node_is_passive (cfg : config) (s s1 : state World) ev1 :
  checkService (checkURLs cfg) None s = (Ok false, s1, ev1) ->
  exists ev,
    cycle cfg s = (Ok tt, s1, ev) /\
    ownership_queries ev = 0%nat /\
    acquire_calls ev = 0%nat /\
    calls ev = [CheckService (checkURLs cfg) None].
Proof.
  intros H. rewrite (cycle_unhealthy cfg s s1 ev1 H).
  apply checkService_calls in H.
  eexists. split; [reflexivity |]. repeat split; count_calls.
Qed.

(** C3. In a cycle of a node in mode [main] whose self check returns
    [True]: when [hasFloatingIP] returns [False], [takeFloatingIP] is called
    exactly once; when it returns [True], [takeFloatingIP] is not called.
    In both cases [checkService] is called once only, on the self-check
    URLs and without a host name: the peer is not checked. *)
Theorem main_role_reclaims_when_lost
  (cfg : config) (s s1 s2 : state World) ev1 ev2 (owned : bool) :
  mode cfg = "main" ->
  checkService (checkURLs cfg) None s = (Ok true, s1, ev1) ->
  hasFloatingIP (floatingIP cfg) (apiKey cfg) s1 = (Ok owned, s2, ev2) ->
  exists r s' ev,
    cycle cfg s = (r, s', ev) /\
    acquire_calls ev = (if owned then 0 else 1)%nat /\
    check_calls ev = [CheckService (checkURLs cfg) None].
Proof.
  intros Hm H1 H2. destruct owned.
  - rewrite (cycle_owned cfg s s1 s2 ev1 ev2 (or_introl Hm) H1 H2).
    apply checkService_calls in H1. apply hasFloatingIP_calls in H2.
    eexists _, _, _. split; [reflexivity |]. split; count_calls.
  - rewrite (cycle_main_lost cfg s s1 s2 ev1 ev2 Hm H1 H2).
    apply checkService_calls in H1. apply hasFloatingIP_calls in H2.
    destruct (takeFloatingIP (floatingIP cfg) (apiKey cfg) s2) as [[[[] | e] s3] ev3] eqn:H3;
      apply takeFloatingIP_calls in H3; cbn [after then_sleep];
      eexists _, _, _; (split; [reflexivity |]); split; count_calls.
Qed.

(** C4. In a cycle of a node in mode [standby] whose self check returns
    [True]: when [hasFloatingIP] returns [True], [takeFloatingIP] is not
    called and the peer is not checked; when it returns [False], the peer
    URLs are checked with the configured host name, and [takeFloatingIP] is
    called exactly once if that check returns [False] and not at all if it
    returns [True]. *)
Theorem standby_role_takes_over_when_peer_down
  (cfg : config) (s s1 s2 : state World) ev1 ev2 (owned : bool) :
  mode cfg = "standby" ->
  checkService (checkURLs cfg) None s = (Ok true, s1, ev1) ->
  hasFloatingIP (floatingIP cfg) (apiKey cfg) s1 = (Ok owned, s2, ev2) ->
  (owned = true ->
   exists r s' ev,
     cycle cfg s = (r, s', ev) /\
     acquire_calls ev = 0%nat /\
     check_calls ev = [CheckService (checkURLs cfg) None]) /\
  (owned = false ->
   forall peer (up : bool) s3 ev3,
     mainURLs cfg = Some peer ->
     checkService peer (mainHost cfg) s2 = (Ok up, s3, ev3) ->
     exists r s' ev,
       cycle cfg s = (r, s', ev) /\
       acquire_calls ev = (if up then 0 else 1)%nat /\
       check_calls ev =
         [CheckService (checkURLs cfg) None; CheckService peer (mainHost cfg)]).
Proof.
  intros Hm H1 H2. split; intros ->.
  - rewrite (cycle_owned cfg s s1 s2 ev1 ev2 (or_intror Hm) H1 H2).
    apply checkService_calls in H1. apply hasFloatingIP_calls in H2.
    eexists _, _, _. split; [reflexivity |]. split; count_calls.
  - intros peer up s3 ev3 Hp H3. destruct up.
    + rewrite (cycle_standby_peer_up cfg peer s s1 s2 s3 ev1 ev2 ev3 Hm Hp H1 H2 H3).
      apply checkService_calls in H1, H3. apply hasFloatingIP_calls in H2.
      eexists _, _, _. split; [reflexivity |]. split; count_calls.
    + rewrite (cycle_standby_peer_down cfg peer s s1 s2 s3 ev1 ev2 ev3 Hm Hp H1 H2 H3).
      apply checkService_calls in H1, H3. apply hasFloatingIP_calls in H2.
      destruct (takeFloatingIP (floatingIP cfg) (apiKey cfg) s3) as [[[[] | e] s4] ev4] eqn:H4;
        apply takeFloatingIP_calls in H4; cbn [after then_sleep];
        eexists _, _, _; (split; [reflexivity |]); split; count_calls.
Qed.

(** *** The loop and [main] *)

Ltac keeps_step :=
  first
    [ apply checkService_keeps | apply hasFloatingIP_keeps | apply takeFloatingIP_keeps
    | apply getDropletID_keeps | apply getMetadata_keeps | apply keeps_emit
    | apply keeps_attempt
    | apply keeps_bind; [| intros ?]
    | match goal with
      | |- keeps (if ?b then _ else _) => destruct b
      | |- keeps (match ?x with _ => _ end) => destruct x
      end
    | apply quiet_keeps; quiet_tac ].

Lemma cycle_keeps (cfg : config) : keeps (cycle cfg).
Proof. unfold cycle, watchdog, sleep. repeat keeps_step. Qed.

Lemma cycles_keeps (cfg : config) (n : nat) : keeps (cycles n cfg).
Proof.
  induction n as [| n IH]; cbn [cycles].
  - apply quiet_keeps, quiet_ret.
  - apply keeps_bind; [apply cycle_keeps | intros _; exact IH].
Qed.

(** A cycle that raises ends the loop: the cycles before it ran, none
    runs after it. *)
Lemma cycles_raise (cfg : config) (k : nat) :
  forall (s sk s' : state World) evk ev e,
    cycles k cfg s = (Ok tt, sk, evk) ->
    cycle cfg sk = (Raise e, s', ev) ->
    forall n, cycles (k + S n) cfg s = (Raise e, s', evk ++ ev).
Proof.
  induction k as [| k IH]; intros s sk s' evk ev e Hk Hc n.
  - cbn in Hk. inversion Hk; subst. cbn [Nat.add cycles]. unfold bind. rewrite Hc.
    reflexivity.
  - cbn [cycles] in Hk. apply bind_inv in Hk.
    destruct Hk as [([] & s1 & ev1 & ev2 & H1 & H2 & ->) | (e' & _ & He)];
      [| discriminate].
    cbn [Nat.add cycles]. unfold bind at 1. rewrite H1.
    rewrite (IH _ _ _ _ _ _ H2 Hc n). rewrite app_assoc. reflexivity.
Qed.

(** [main] once the settings are read: the watchdog is started, the loop
    runs, and an exception that leaves the loop stops the watchdog on its
    way out of [main]. *)
Lemma main_run (env : environ) (cfg : config) (n : nat) (s0 s : state World) ev0 :
  main_config env s0 = (Ok (Some cfg), s, ev0) ->
  main n env s0 =
  match cycles n cfg s with
  | (Ok _, s', ev) => (Ok StillRunning, s', ev0 ++ EvWatchdog WdStart :: ev)
  | (Raise e, s', ev) => (Raise e, s', ev0 ++ EvWatchdog WdStart :: ev ++ [EvWatchdog WdStop])
  end.
Proof.
  intros H. unfold main, bind at 1. rewrite H.
  unfold bind, watchdog, emit, attempt, raise, ret.
  destruct (cycles n cfg s) as [[[[] | e] s'] ev]; cbn; rewrite ?app_nil_r; reflexivity.
Qed.

(** The settings [main] builds when the mode, the key and the IP are
    set. *)
Lemma main_config_run (env : environ) (m k ip : string) (s : state World) :
  environ_item env "FAILOVER_MODE" = Some m ->
  environ_item env "API_KEY" = Some k ->
  environ_item env "FLOATING_IP" = Some ip ->
  main_config env s =
  match (if (m =? "main")%string
            && (match environ_item env "FAILOVER_MAIN" with Some _ => true | None => false end)
         then environ_item env "FAILOVER_MAIN"
         else environ_item env "FAILOVER_CHECK") with
  | None => (Raise (Exception_ (Fmt "Missing 'FAILOVER_CHECK' url(s)!" [])), s, [])
  | Some c =>
      (Ok (Some {| mode := m; apiKey := k; floatingIP := ip;
                   checkURLs := Py.split "|" c;
                   mainURLs := option_map (Py.split "|") (environ_item env "FAILOVER_MAIN");
                   mainHost := environ_item env "FAILOVER_MAIN_HOST" |}), s, [])
  end.
Proof.
  intros Hm Hk Hip. unfold main_config. rewrite Hm, Hk, Hip.
  destruct (environ_item env "FAILOVER_MAIN"), (environ_item env "FAILOVER_CHECK"),
    (m =? "main")%string; reflexivity.
Qed.

(** C5 (as the code has it).  A standby node without [FAILOVER_MAIN]
    passes the start-up validation.  The missing setting is an error of the
    cycle in which the self check returns [True] and [hasFloatingIP] returns
    [False]: that cycle raises it, without a peer check and without a call
    of [takeFloatingIP], and [main] stops the watchdog and lets it through.
    A cycle whose self check fails, and a cycle in which the node holds the
    IP, end normally. *)
Theorem standby_without_peer_fails_in_cycle
  (env : environ) (k ip c : string) :
  environ_item env "FAILOVER_MODE" = Some "standby" ->
  environ_item env "FAILOVER_MAIN" = None ->
  environ_item env "API_KEY" = Some k ->
  environ_item env "FLOATING_IP" = Some ip ->
  environ_item env "FAILOVER_CHECK" = Some c ->
  exists cfg,
    mode cfg = "standby" /\ mainURLs cfg = None /\
    checkURLs cfg = Py.split "|" c /\
    (forall s, main_config env s = (Ok (Some cfg), s, [])) /\
    (forall s s1 ev1,
        checkService (checkURLs cfg) None s = (Ok false, s1, ev1) ->
        exists ev, cycle cfg s = (Ok tt, s1, ev)) /\
    (forall s s1 s2 ev1 ev2,
        checkService (checkURLs cfg) None s = (Ok true, s1, ev1) ->
        hasFloatingIP ip k s1 = (Ok true, s2, ev2) ->
        exists ev, cycle cfg s = (Ok tt, s2, ev)) /\
    (forall s s1 s2 ev1 ev2,
        checkService (checkURLs cfg) None s = (Ok true, s1, ev1) ->
        hasFloatingIP ip k s1 = (Ok false, s2, ev2) ->
        cycle cfg s = (Raise missing_peer, s2, EvWatchdog WdKick :: ev1 ++ ev2) /\
        check_calls (EvWatchdog WdKick :: ev1 ++ ev2) = [CheckService (checkURLs cfg) None] /\
        acquire_calls (EvWatchdog WdKick :: ev1 ++ ev2) = 0%nat /\
        forall n,
          main (S n) env s =
          (Raise missing_peer, s2,
           EvWatchdog WdStart :: (EvWatchdog WdKick :: ev1 ++ ev2) ++ [EvWatchdog WdStop])).
Proof.
  intros Hm Hp Hk Hip Hc.
  set (cfg := {| mode := "standby"; apiKey := k; floatingIP := ip;
                 checkURLs := Py.split "|" c; mainURLs := None;
                 mainHost := environ_item env "FAILOVER_MAIN_HOST" |}).
  assert (Hcfg : forall s, main_config env s = (Ok (Some cfg), s, [])).
  { intros s. rewrite (main_config_run env _ _ _ s Hm Hk Hip). rewrite Hp, Hc. reflexivity. }
  exists cfg. split; [reflexivity |]. split; [reflexivity |]. split; [reflexivity |].
  split; [exact Hcfg |]. split; [| split].
  - intros s s1 ev1 H1. eexists. apply (cycle_unhealthy _ _ _ _ H1).
  - intros s s1 s2 ev1 ev2 H1 H2. eexists.
    apply (cycle_owned cfg s s1 s2 ev1 ev2); auto.
  - intros s s1 s2 ev1 ev2 H1 H2.
    assert (Hcyc : cycle cfg s = (Raise missing_peer, s2, EvWatchdog WdKick :: ev1 ++ ev2))
      by (apply (cycle_standby_no_peer cfg s s1 s2 ev1 ev2); auto).
    split; [exact Hcyc |].
    pose proof (checkService_calls _ _ _ _ _ _ H1) as C1.
    pose proof (hasFloatingIP_calls _ _ _ _ _ _ H2) as C2.
    split; [count_calls |]. split; [count_calls |].
    intros n.
    pose proof (cycles_raise cfg 0 s s s2 [] _ _ eq_refl Hcyc n) as Hn.
    cbn [Nat.add app] in Hn.
    rewrite (main_run env cfg (S n) s s [] (Hcfg s)), Hn. reflexivity.
Qed.

(** C6 (as the code has it).  The loop has no handler: when, in some
    cycle, [hasFloatingIP] or [takeFloatingIP] raises, the exception leaves
    the cycle at once (nothing is logged for it by the loop, nothing
    retried, no sleep), no later cycle runs however long the loop is
    followed, and [main] stops the watchdog and ends with that
    exception. *)
Theorem ownership_error_ends_the_run
  (cfg : config) (k : nat) (s sk s1 : state World) evk ev1 :
  mode cfg = "main" \/ mode cfg = "standby" ->
  cycles k cfg s = (Ok tt, sk, evk) ->
  checkService (checkURLs cfg) None sk = (Ok true, s1, ev1) ->
  (forall e s2 ev2,
      hasFloatingIP (floatingIP cfg) (apiKey cfg) s1 = (Raise e, s2, ev2) ->
      forall n,
        cycles (k + S n) cfg s = (Raise e, s2, evk ++ EvWatchdog WdKick :: ev1 ++ ev2)) /\
  (forall e s2 ev2 s3 ev3,
      mode cfg = "main" ->
      hasFloatingIP (floatingIP cfg) (apiKey cfg) s1 = (Ok false, s2, ev2) ->
      takeFloatingIP (floatingIP cfg) (apiKey cfg) s2 = (Raise e, s3, ev3) ->
      forall n,
        cycles (k + S n) cfg s =
        (Raise e, s3, evk ++ EvWatchdog WdKick :: ev1 ++ ev2 ++ log_lost :: ev3)) /\
  (forall e peer s2 ev2 s3 ev3 s4 ev4,
      mode cfg = "standby" ->
      mainURLs cfg = Some peer ->
      hasFloatingIP (floatingIP cfg) (apiKey cfg) s1 = (Ok false, s2, ev2) ->
      checkService peer (mainHost cfg) s2 = (Ok false, s3, ev3) ->
      takeFloatingIP (floatingIP cfg) (apiKey cfg) s3 = (Raise e, s4, ev4) ->
      forall n,
        cycles (k + S n) cfg s =
        (Raise e, s4,
         evk ++ EvWatchdog WdKick :: ev1 ++ ev2 ++ ev3 ++ log_taking_over :: ev4)) /\
  (forall env s0 ev0 n e s' ev,
      main_config env s0 = (Ok (Some cfg), s, ev0) ->
      cycles n cfg s = (Raise e, s', ev) ->
      main n env s0 = (Raise e, s', ev0 ++ EvWatchdog WdStart :: ev ++ [EvWatchdog WdStop])).
Proof.
  intros Hm Hk H1. repeat split.
  - intros e s2 ev2 H2 n.
    apply (cycles_raise cfg k s sk s2 evk _ e Hk).
    apply (cycle_query_raises cfg sk s1 s2 ev1 ev2 e Hm H1 H2).
  - intros e s2 ev2 s3 ev3 Hmain H2 H3 n.
    apply (cycles_raise cfg k s sk s3 evk _ e Hk).
    rewrite (cycle_main_lost cfg sk s1 s2 ev1 ev2 Hmain H1 H2), H3.
    cbn [then_sleep after]. rewrite <- ?app_assoc. cbn [app]. rewrite <- ?app_assoc. reflexivity.
  - intros e peer s2 ev2 s3 ev3 s4 ev4 Hs Hp H2 H3 H4 n.
    apply (cycles_raise cfg k s sk s4 evk _ e Hk).
    rewrite (cycle_standby_peer_down cfg peer sk s1 s2 s3 ev1 ev2 ev3 Hs Hp H1 H2 H3), H4.
    cbn [then_sleep after]. rewrite <- ?app_assoc. cbn [app]. rewrite <- ?app_assoc. reflexivity.
  - intros env s0 ev0 n e s' ev Hc Hn.
    rewrite (main_run env cfg n s0 s ev0 Hc), Hn. reflexivity.
Qed.

(** *** The shape of the ownership answer *)

Lemma eq_None (v : json) : Py.eq v JNull = Py.is_None v.
Proof. destruct v; reflexivity. Qed.

(** [hasFloatingIP] returns exactly in the one case that the request
    came back with a JSON document through which [_item] found its way. *)
Lemma hasFloatingIP_returns (ip k : string) (s s' : state World) (b : bool) ev :
  hasFloatingIP ip k s = (Ok b, s', ev) ->
  exists id s1 ev1 resp data owner,
    getDropletID s = (Ok id, s1, ev1) /\
    fst (urlopen (ownership_request ip k) None 20 (world s1)) = Ok resp /\
    body resp = Ok (Some data) /\
    _item data owner_path JNull = Ok owner /\
    b = Py.eq id owner.
Proof.
  intros H. destruct (getDropletID s) as [[[id | e] s1] ev1] eqn:Hd.
  - rewrite (hasFloatingIP_run ip k s s1 id ev1 Hd) in H.
    destruct (fst (urlopen (ownership_request ip k) None 20 (world s1))) as [resp | e] eqn:Ho;
      [| discriminate].
    destruct (body resp) as [[data |] | e] eqn:Hb; try discriminate.
    destruct (_item data owner_path JNull) as [owner | e] eqn:Hi; [| discriminate].
    inversion H; subst. exists id, s1, ev1, resp, data, owner. auto.
  - rewrite (hasFloatingIP_no_identity ip k s s1 e ev1 Hd) in H. discriminate.
Qed.

(** C7 (as the code has it).  [hasFloatingIP] raises when the droplet id
    cannot be had, when [urlopen] raises, when the body cannot be read and
    when it is not JSON.
    When the body is a JSON object from which the path
    [floating_ip.droplet.id] is missing (a key is absent at some level, or
    [null] stands in its place), [_item] yields [None] and [hasFloatingIP]
    returns the comparison of the droplet id with [None]: [False] for
    every droplet id that is not [None]. *)
Theorem hasFloatingIP_on_missing_owner (ip k : string) (s : state World) :
  (forall e s1 ev1,
      getDropletID s = (Raise e, s1, ev1) ->
      exists s' ev, hasFloatingIP ip k s = (Raise e, s', ev)) /\
  (forall id s1 ev1,
      getDropletID s = (Ok id, s1, ev1) ->
      (forall e,
          fst (urlopen (ownership_request ip k) None 20 (world s1)) = Raise e ->
          exists s' ev, hasFloatingIP ip k s = (Raise e, s', ev)) /\
      (forall resp e,
          fst (urlopen (ownership_request ip k) None 20 (world s1)) = Ok resp ->
          body resp = Raise e ->
          exists s' ev, hasFloatingIP ip k s = (Raise e, s', ev)) /\
      (forall resp,
          fst (urlopen (ownership_request ip k) None 20 (world s1)) = Ok resp ->
          body resp = Ok None ->
          exists s' ev, hasFloatingIP ip k s = (Raise ValueError, s', ev)) /\
      (forall resp data,
          fst (urlopen (ownership_request ip k) None 20 (world s1)) = Ok resp ->
          body resp = Ok (Some data) ->
          _item data owner_path JNull = Ok JNull ->
          id <> JNull ->
          exists s' ev, hasFloatingIP ip k s = (Ok false, s', ev))) /\
  (forall d,
      Py.lookup "floating_ip" d = None ->
      _item (JDict d) owner_path JNull = Ok JNull) /\
  (forall d, Py.lookup "floating_ip" d = Some JNull ->
             _item (JDict d) owner_path JNull = Ok JNull) /\
  (forall d f,
      Py.lookup "floating_ip" d = Some (JDict f) ->
      Py.lookup "droplet" f = None \/ Py.lookup "droplet" f = Some JNull ->
      _item (JDict d) owner_path JNull = Ok JNull) /\
  (forall d f g,
      Py.lookup "floating_ip" d = Some (JDict f) ->
      Py.lookup "droplet" f = Some (JDict g) ->
      Py.lookup "id" g = None \/ Py.lookup "id" g = Some JNull ->
      _item (JDict d) owner_path JNull = Ok JNull).
Proof.
  split; [| split; [| split; [| split; [| split]]]].
  - intros e s1 ev1 Hd. rewrite (hasFloatingIP_no_identity ip k s s1 e ev1 Hd). eauto.
  - intros id s1 ev1 Hd. rewrite (hasFloatingIP_run ip k s s1 id ev1 Hd).
    repeat split.
    + intros e ->. eauto.
    + intros resp e -> ->. eauto.
    + intros resp -> ->. eauto.
    + intros resp data -> -> -> Hid. rewrite eq_None.
      destruct id; try congruence; cbn; eauto.
  - intros d H. cbn. rewrite H. reflexivity.
  - intros d H. cbn. rewrite H. reflexivity.
  - intros d f H [H' | H']; cbn; rewrite H; cbn; rewrite H'; reflexivity.
  - intros d f g H H' [H'' | H'']; cbn; rewrite H; cbn; rewrite H'; cbn;
      rewrite H''; reflexivity.
Qed.

(** *** The self-check URLs of a node in mode [main] *)

Lemma check_calls_app (ev1 ev2 : list event) :
  check_calls (ev1 ++ ev2) = check_calls ev1 ++ check_calls ev2.
Proof. unfold check_calls. rewrite calls_app. apply filter_app. Qed.

(** In mode [main] a cycle checks the self-check URLs, once, and nothing
    else. *)
Lemma cycle_main_checks (cfg : config) (s s' : state World) r ev :
  mode cfg = "main" ->
  cycle cfg s = (r, s', ev) ->
  check_calls ev = [CheckService (checkURLs cfg) None].
Proof.
  intros Hm H.
  destruct (checkService_total (checkURLs cfg) None s) as (b & s1 & ev1 & H1).
  pose proof (checkService_calls _ _ _ _ _ _ H1) as C1.
  destruct b.
  - destruct (hasFloatingIP (floatingIP cfg) (apiKey cfg) s1) as [[[owned | e] s2] ev2] eqn:H2;
      pose proof (hasFloatingIP_calls _ _ _ _ _ _ H2) as C2.
    + destruct owned.
      * rewrite (cycle_owned cfg s s1 s2 ev1 ev2 (or_introl Hm) H1 H2) in H.
        inversion H; subst. count_calls.
      * rewrite (cycle_main_lost cfg s s1 s2 ev1 ev2 Hm H1 H2) in H.
        destruct (takeFloatingIP (floatingIP cfg) (apiKey cfg) s2) as [[[[] | e] s3] ev3] eqn:H3;
          apply takeFloatingIP_calls in H3; cbn [after then_sleep] in H;
          inversion H; subst; count_calls.
    + rewrite (cycle_query_raises cfg s s1 s2 ev1 ev2 e (or_introl Hm) H1 H2) in H.
      inversion H; subst. count_calls.
  - rewrite (cycle_unhealthy cfg s s1 ev1 H1) in H. inversion H; subst. count_calls.
Qed.

Lemma cycles_main_checks (cfg : config) (n : nat) :
  mode cfg = "main" ->
  forall (s s' : state World) r ev,
    cycles n cfg s = (r, s', ev) ->
    exists m, (m <= n)%nat /\
              check_calls ev = repeat (CheckService (checkURLs cfg) None) m /\
              (r = Ok tt -> m = n).
Proof.
  intros Hm. induction n as [| n IH]; intros s s' r ev H.
  - inversion H; subst. exists 0%nat. repeat split. lia.
  - cbn [cycles] in H. apply bind_inv in H.
    destruct H as [([] & s1 & ev1 & ev2 & H1 & H2 & ->) | (e & H1 & ->)].
    + apply (cycle_main_checks cfg _ _ _ _ Hm) in H1.
      destruct (IH _ _ _ _ H2) as (m & Hle & Hc & Hok).
      exists (S m). rewrite check_calls_app, H1, Hc. repeat split; [lia |].
      intros Hr. rewrite (Hok Hr). reflexivity.
    + apply (cycle_main_checks cfg _ _ _ _ Hm) in H1.
      exists 1%nat. rewrite H1. repeat split; [lia | discriminate].
Qed.

(** C9. For a node in mode [main] the URLs of the self check are those of
    [FAILOVER_MAIN] when it is set, whatever [FAILOVER_CHECK] says, and
    those of [FAILOVER_CHECK] when [FAILOVER_MAIN] is not set; every cycle
    of the run checks exactly these URLs. *)
Theorem main_mode_self_check_urls (env : environ) (k ip urls : string) :
  environ_item env "FAILOVER_MODE" = Some "main" ->
  environ_item env "API_KEY" = Some k ->
  environ_item env "FLOATING_IP" = Some ip ->
  environ_item env "FAILOVER_MAIN" = Some urls \/
  (environ_item env "FAILOVER_MAIN" = None /\
   environ_item env "FAILOVER_CHECK" = Some urls) ->
  exists cfg,
    checkURLs cfg = Py.split "|" urls /\
    (forall s, main_config env s = (Ok (Some cfg), s, [])) /\
    (forall n s r s' ev,
        main n env s = (r, s', ev) ->
        exists m, (m <= n)%nat /\
                  check_calls ev = repeat (CheckService (Py.split "|" urls) None) m /\
                  (r = Ok StillRunning -> m = n)).
Proof.
  intros Hm Hk Hip Hurls.
  set (cfg := {| mode := "main"; apiKey := k; floatingIP := ip;
                 checkURLs := Py.split "|" urls;
                 mainURLs := option_map (Py.split "|") (environ_item env "FAILOVER_MAIN");
                 mainHost := environ_item env "FAILOVER_MAIN_HOST" |}).
  assert (Hcfg : forall s, main_config env s = (Ok (Some cfg), s, [])).
  { intros s. rewrite (main_config_run env _ _ _ s Hm Hk Hip). unfold cfg.
    destruct Hurls as [H | [H H']]; rewrite H; cbn; rewrite ?H'; reflexivity. }
  assert (Hmode : mode cfg = "main") by reflexivity.
  exists cfg. split; [reflexivity |]. split; [exact Hcfg |].
  intros n s r s' ev H.
  rewrite (main_run env cfg n s s [] (Hcfg s)) in H.
  destruct (cycles n cfg s) as [[rn sn] evn] eqn:Hn.
  destruct (cycles_main_checks cfg n Hmode _ _ _ _ Hn) as (m & Hle & Hc & Hok).
  change (checkURLs cfg) with (Py.split "|" urls) in Hc.
  exists m. split; [exact Hle |].
  destruct rn as [[] | e]; inversion H; subst; cbn [app];
    change (EvWatchdog WdStart :: ?l) with ([EvWatchdog WdStart] ++ l);
    rewrite ?check_calls_app, Hc; cbn; rewrite ?app_nil_r;
    split; auto; discriminate.
Qed.

(** *** The cached droplet id *)

(** What [getMetadata] returns is what [_metadata] holds afterwards. *)
Lemma getMetadata_stores (s s1 : state World) (m : json) ev :
  getMetadata true s = (Ok m, s1, ev) -> _metadata s1 = m.
Proof.
  intros H.
  assert (D : _metadata s = JNull \/ _metadata s <> JNull)
    by (destruct (_metadata s); (left; reflexivity) || (right; discriminate)).
  destruct D as [E | E].
  - rewrite getMetadata_fetch in H by auto. cbn zeta in H.
    destruct (_get_result metadata_url _) as [[v |] | e]; inversion H; subst; reflexivity.
  - rewrite (getMetadata_cached s E) in H. inversion H; subst. reflexivity.
Qed.

Lemma subscript_None (k : key) : Py.subscript JNull k = Raise TypeError.
Proof. destruct k; reflexivity. Qed.

(** [getDropletID] on a state whose [_metadata] is set: no request. *)
Lemma getDropletID_cached (s : state World) :
  _metadata s <> JNull ->
  getDropletID s =
  (Py.subscript (_metadata s) (KStr "droplet_id"), s, [EvCall (GetMetadata true)]).
Proof.
  intros H. unfold getDropletID, bind, lift. rewrite (getMetadata_cached s H).
  reflexivity.
Qed.

Lemma requests_call (c : call) (ev : list event) : requests (EvCall c :: ev) = requests ev.
Proof. reflexivity. Qed.

(** [takeFloatingIP] once the droplet id is known: one POST, accepted on
    the statuses 200 and 201; on another status the body is read for the
    log. *)
Lemma takeFloatingIP_run (ip k : string) (s s1 : state World) id ev1 :
  getDropletID s = (Ok id, s1, ev1) ->
  takeFloatingIP ip k s =
  (match fst (urlopen (assign_request ip k) (assign_body id) 20 (world s1)) with
   | Raise e => Raise e
   | Ok resp =>
       if (status resp =? 200) || (status resp =? 201) then Ok tt
       else match body resp with
            | Ok _ => Raise (Exception_ (Fmt "Failed to acquire floating IP (code {0})"
                                             [AInt (status resp)]))
            | Raise e => Raise e
            end
   end,
   State (snd (urlopen (assign_request ip k) (assign_body id) 20 (world s1))) (_metadata s1),
   EvCall (TakeFloatingIP ip k) :: ev1
     ++ EvRequest (assign_request ip k) (assign_body id) 20
          (fst (urlopen (assign_request ip k) (assign_body id) 20 (world s1)))
     :: match fst (urlopen (assign_request ip k) (assign_body id) 20 (world s1)) with
        | Raise e => []
        | Ok resp =>
            if (status resp =? 200) || (status resp =? 201)
            then [EvLog INFO "Acquired the floating IP {0}" [LStr ip]]
            else match body resp with
                 | Ok b => [EvLog ERROR "response body: {0}" [LBody b]]
                 | Raise _ => []
                 end
        end).
Proof.
  intros Hd. unfold takeFloatingIP, bind at 1 2, emit. rewrite Hd.
  unfold bind at 1. rewrite Request_api. unfold lift at 1.
  unfold bind, read, lift, logging, emit, raise. rewrite do_urlopen_run.
  change (add_header (add_header _ "Content-type" _) "Authorization" _)
    with (assign_request ip k).
  fold (assign_body id).
  destruct (fst (urlopen (assign_request ip k) (assign_body id) 20 (world s1))) as [resp | e];
    [| reflexivity].
  destruct ((status resp =? 200) || (status resp =? 201)); [reflexivity |].
  destruct (body resp); reflexivity.
Qed.

(** C10 (as the code has it).  After a call of [getDropletID] that
    returned an id, [_metadata] is set; from then on [getDropletID] returns
    that id without a request and cannot fail, [hasFloatingIP] and
    [takeFloatingIP] send their own request and no other, and nothing the
    loop does changes [_metadata]. *)
Theorem droplet_id_is_cached (s s1 : state World) (id : json) ev1 :
  getDropletID s = (Ok id, s1, ev1) ->
  _metadata s1 <> JNull /\
  (forall s2,
      _metadata s2 = _metadata s1 ->
      getDropletID s2 = (Ok id, s2, [EvCall (GetMetadata true)])) /\
  (forall s2 ip k r s3 ev,
      _metadata s2 = _metadata s1 ->
      hasFloatingIP ip k s2 = (r, s3, ev) ->
      map fst (requests ev) = [ownership_request ip k] /\
      _metadata s3 = _metadata s1) /\
  (forall s2 ip k r s3 ev,
      _metadata s2 = _metadata s1 ->
      takeFloatingIP ip k s2 = (r, s3, ev) ->
      map fst (requests ev) = [assign_request ip k] /\
      _metadata s3 = _metadata s1) /\
  (forall s2 cfg n r s3 ev,
      _metadata s2 = _metadata s1 ->
      cycles n cfg s2 = (r, s3, ev) ->
      _metadata s3 = _metadata s1).
Proof.
  intros H. unfold getDropletID in H. apply bind_inv in H.
  destruct H as [(m & s1' & eva & evb & Hm & Hl & ->) | (e & _ & He)]; [| discriminate].
  unfold lift in Hl. injection Hl as Hsub Hs1 Hevb. subst s1' evb.
  pose proof (getMetadata_stores _ _ _ _ Hm) as Hst.
  assert (Hnn : _metadata s1 <> JNull).
  { rewrite Hst. intros ->. rewrite subscript_None in Hsub. discriminate. }
  assert (Hget : forall s2, _metadata s2 = _metadata s1 ->
                            getDropletID s2 = (Ok id, s2, [EvCall (GetMetadata true)])).
  { intros s2 E. rewrite getDropletID_cached by congruence.
    rewrite E, Hst, Hsub. reflexivity. }
  split; [exact Hnn |]. split; [exact Hget |]. split; [| split].
  - intros s2 ip k r s3 ev E Hh. split.
    + rewrite (hasFloatingIP_run ip k s2 s2 id _ (Hget s2 E)) in Hh.
      inversion Hh; subst. reflexivity.
    + rewrite <- E. apply (hasFloatingIP_keeps ip k _ _ _ _ Hh). congruence.
  - intros s2 ip k r s3 ev E Ht. split.
    + rewrite (takeFloatingIP_run ip k s2 s2 id _ (Hget s2 E)) in Ht.
      destruct (fst (urlopen (assign_request ip k) (assign_body id) 20 (world s2)))
        as [resp | e];
        [destruct ((status resp =? 200) || (status resp =? 201));
         [| destruct (body resp)] |];
        inversion Ht; subst; cbn [app]; rewrite !requests_call; reflexivity.
    + rewrite <- E. apply (takeFloatingIP_keeps ip k _ _ _ _ Ht). congruence.
  - intros s2 cfg n r s3 ev E Hc.
    rewrite <- E. apply (cycles_keeps cfg n _ _ _ _ Hc). congruence.
Qed.

(** *** [_item] and the environment *)

(** With [str] keys [_item] never raises a [KeyError]: the one exception
    it can raise is the [TypeError] of a path that runs into a list, a
    number, a boolean or a string. *)
Theorem _item_str_keys_only_TypeError (ks : list string) :
  forall data default,
    match _item data (map KStr ks) default with
    | Ok _ => True
    | Raise e => e = TypeError
    end.
Proof.
  induction ks as [| k ks IH]; intros data default; cbn [map _item].
  - destruct (Py.is_None data); exact I.
  - destruct data; cbn; auto.
    + destruct (Py.contains k s); cbn; auto.
    + destruct (Py.lookup k d) as [v |] eqn:E; [| exact I].
      apply IH.
Qed.

Lemma lookup_In (d : list (string * json)) (k : string) (v : json) :
  NoDup (map fst d) -> In (k, v) d -> Py.lookup k d = Some v.
Proof.
  induction d as [| [k' v'] d IH]; cbn; intros Hnd Hin; [contradiction |].
  inversion Hnd as [| ? ? Hnotin Hnd']; subst.
  destruct (String.eqb_spec k k') as [-> | Hne].
  - destruct Hin as [E | Hin]; [injection E as ->; reflexivity |].
    exfalso. apply Hnotin. apply (in_map fst) in Hin. exact Hin.
  - destruct Hin as [E | Hin]; [injection E as E _; congruence |].
    apply IH; assumption.
Qed.

(** Following a key path through nested dicts, whatever else they hold,
    [_item] returns the value at its end; a value that is [None] is
    answered with the default, as a missing key is. *)
Theorem _item_finds_leaf (data : json) (ks : list string) (leaf default : json) :
  reaches data ks leaf ->
  _item data (map KStr ks) default
  = Ok (if Py.is_None leaf then default else leaf).
Proof.
  induction 1 as [v | d k v ks leaf Hnd Hin _ IH]; cbn [map _item].
  - destruct (Py.is_None v); reflexivity.
  - cbn. rewrite (lookup_In d k v Hnd Hin). exact IH.
Qed.

(** On a list, [_item] checks the index against the length on one side
    only: an index at or beyond the length gives the default, an index
    inside the list and a negative index down to [-len] select an element
    (Python counts a negative index from the end), and an index below
    [-len] raises [IndexError]. *)
Theorem _item_list_index (l : list json) (i : Z) (ks : list key) (default : json) :
  (Z.of_nat (length l) <= i ->
   _item (JList l) (KInt i :: ks) default = Ok default) /\
  (forall x, 0 <= i < Z.of_nat (length l) ->
             nth_error l (Z.to_nat i) = Some x ->
             _item (JList l) (KInt i :: ks) default = _item x ks default) /\
  (forall x, - Z.of_nat (length l) <= i < 0 ->
             nth_error l (Z.to_nat (Z.of_nat (length l) + i)) = Some x ->
             _item (JList l) (KInt i :: ks) default = _item x ks default) /\
  (i < - Z.of_nat (length l) ->
   _item (JList l) (KInt i :: ks) default = Raise IndexError).
Proof.
  cbn [_item Py.is_None Py.len_le Py.subscript]. cbv zeta.
  repeat split.
  - intros H. destruct (Z.leb_spec (Z.of_nat (length l)) i); [reflexivity | lia].
  - intros x [H0 H1] Hx.
    destruct (Z.leb_spec (Z.of_nat (length l)) i); [lia |].
    destruct (Z.leb_spec 0 i); [| lia].
    destruct (Z.ltb_spec i (Z.of_nat (length l))); [| lia].
    cbn [andb]. rewrite Hx. reflexivity.
  - intros x [H0 H1] Hx.
    destruct (Z.leb_spec (Z.of_nat (length l)) i); [lia |].
    destruct (Z.leb_spec 0 i); [lia |]. cbn [andb].
    destruct (Z.ltb_spec i 0); [| lia].
    destruct (Z.leb_spec (- Z.of_nat (length l)) i); [| lia].
    cbn [andb]. rewrite Hx. reflexivity.
  - intros H.
    destruct (Z.leb_spec (Z.of_nat (length l)) i); [lia |].
    destruct (Z.leb_spec 0 i); [lia |]. cbn [andb].
    destruct (Z.ltb_spec i 0); [| lia].
    destruct (Z.leb_spec (- Z.of_nat (length l)) i); [lia |].
    reflexivity.
Qed.

Lemma lookup_environ_dict (name : string) (env : environ) :
  Py.lookup name (map (fun kv => (fst kv, JStr (snd kv))) env)
  = option_map JStr (getenv name env).
Proof.
  induction env as [| [k v] env IH]; cbn; [reflexivity |].
  destruct (String.eqb name k); [reflexivity | exact IH].
Qed.

(** [_item(os.environ, name)] is the value of the variable when it is set
    and [None] when it is not; it never raises. *)
Theorem environ_item_getenv (env : environ) (name : string) :
  _item (environ_dict env) [KStr name] JNull
  = Ok (match getenv name env with Some v => JStr v | None => JNull end) /\
  environ_item env name = getenv name env.
Proof.
  unfold environ_item, environ_dict. cbn. rewrite lookup_environ_dict.
  destruct (getenv name env); cbn; split; reflexivity.
Qed.

(** *** What a run can do *)

Lemma always_ret {A} P (a : A) : always P (ret World a).
Proof. intros s r s' ev H. inversion H. constructor. Qed.

Lemma always_raise {A} P (e : exn) : always P (@raise World A e).
Proof. intros s r s' ev H. inversion H. constructor. Qed.

Lemma always_lift {A} P (r : result A) : always P (lift World r).
Proof. intros s r' s' ev H. inversion H. constructor. Qed.

Lemma always_json_loads P b : always P (json_loads World b).
Proof. destruct b; [apply always_ret | apply always_raise]. Qed.

Lemma always_emit (P : event -> Prop) (e : event) : P e -> always P (emit World e).
Proof. intros He s r s' ev H. inversion H. constructor; [exact He | constructor]. Qed.

Lemma always_do_urlopen (P : event -> Prop) req data t :
  (forall out, P (EvRequest req data t out)) ->
  always P (do_urlopen World urlopen req data t).
Proof.
  intros HP s r s' ev H. rewrite do_urlopen_run in H. inversion H.
  constructor; [apply HP | constructor].
Qed.

Lemma always_bind {A B} P (m : M World A) (f : A -> M World B) :
  always P m -> (forall a, always P (f a)) -> always P (bind World m f).
Proof.
  intros Hm Hf s r s' ev H.
  apply bind_inv in H. destruct H as [(a & s1 & ev1 & ev2 & H1 & H2 & ->) | (e & H1 & _)].
  - apply Forall_app. split; [apply (Hm _ _ _ _ H1) | apply (Hf _ _ _ _ _ H2)].
  - apply (Hm _ _ _ _ H1).
Qed.

Lemma always_attempt {A} P (m : M World A) : always P m -> always P (attempt World m).
Proof.
  intros Hm s r s' ev H. unfold attempt in H.
  destruct (m s) as [[r1 s1] ev1] eqn:E. inversion H; subst. eapply Hm; eauto.
Qed.

Lemma always_get_metadata P : always P (get_metadata World).
Proof. intros s r s' ev H. inversion H. constructor. Qed.

Lemma always_set_metadata P v : always P (set_metadata World v).
Proof. intros s r s' ev H. inversion H. constructor. Qed.

Lemma inner_probe ip key h u out : inner_event ip key (EvRequest (probe h u) None 20 out).
Proof. cbn. split; [reflexivity |]. left. split; [reflexivity |]. eauto. Qed.

Lemma inner_ownership ip key out :
  inner_event ip key (EvRequest (ownership_request ip key) None 20 out).
Proof. cbn. split; [reflexivity |]. right. left. split; reflexivity. Qed.

Lemma inner_assign ip key id out :
  inner_event ip key (EvRequest (assign_request ip key) (assign_body id) 20 out).
Proof. cbn. split; [reflexivity |]. right. right. exists id. split; reflexivity. Qed.

Ltac always_step :=
  first
    [ apply always_ret | apply always_raise | apply always_lift | apply always_json_loads
    | apply always_get_metadata | apply always_set_metadata | apply always_attempt
    | apply always_emit; exact I
    | apply always_bind; [| intros ?]
    | match goal with
      | |- always _ (if ?b then _ else _) => destruct b
      | |- always _ (match ?x with _ => _ end) => destruct x
      end ].

Lemma inner__get ip key (u : string) (h : option string) :
  always (inner_event ip key) (_get u h).
Proof.
  intros s r s' ev H. destruct (Urllib.has_type u) eqn:Hu.
  - rewrite (_get_run u h s Hu) in H. inversion H.
    constructor; [apply inner_probe | constructor].
  - rewrite (_get_rejected u h s Hu) in H. inversion H. constructor.
Qed.

Lemma inner_checkService ip key (urls : list string) (h : option string) :
  always (inner_event ip key) (checkService urls h).
Proof.
  unfold checkService, logging. apply always_bind; [apply always_emit; exact I |].
  intros _. apply always_bind.
  - induction urls as [| u urls IH]; cbn [checkService_loop].
    + apply always_ret.
    + apply always_bind; [apply always_attempt, inner__get |].
      intros [b | e]; [exact IH | apply always_ret].
  - intros [[u e] |]; [destruct e |]; repeat always_step.
Qed.

Lemma inner_getMetadata ip key (cache : bool) :
  always (inner_event ip key) (getMetadata cache).
Proof.
  unfold getMetadata.
  repeat first [ apply (inner__get ip key) | always_step ].
Qed.

Lemma inner_getDropletID ip key : always (inner_event ip key) getDropletID.
Proof.
  unfold getDropletID. apply always_bind; [apply inner_getMetadata |].
  intros m. apply always_lift.
Qed.

Lemma always_bind_lift {A B} P (r : result A) (f : A -> M World B) :
  (forall a, r = Ok a -> always P (f a)) -> always P (bind World (lift World r) f).
Proof.
  intros Hf s r' s' ev H. unfold bind, lift in H. destruct r as [a | e].
  - destruct (f a s) as [[r2 s2] ev2] eqn:E. inversion H; subst. cbn.
    apply (Hf a eq_refl _ _ _ _ E).
  - inversion H. constructor.
Qed.

Lemma inner_hasFloatingIP ip key : always (inner_event ip key) (hasFloatingIP ip key).
Proof.
  unfold hasFloatingIP, read.
  apply always_bind; [apply always_emit; exact I |]. intros _.
  apply always_bind; [apply inner_getDropletID |]. intros id.
  apply always_bind_lift. intros req Hreq. rewrite Request_api in Hreq.
  injection Hreq as <-.
  apply always_bind; [apply always_do_urlopen; intros out; apply inner_ownership |].
  intros resp. repeat always_step.
Qed.

Lemma inner_takeFloatingIP ip key : always (inner_event ip key) (takeFloatingIP ip key).
Proof.
  unfold takeFloatingIP, logging, read.
  apply always_bind; [apply always_emit; exact I |]. intros _.
  apply always_bind; [apply inner_getDropletID |]. intros id.
  apply always_bind_lift. intros req Hreq. rewrite Request_api in Hreq.
  injection Hreq as <-.
  apply always_bind;
    [apply always_do_urlopen; intros out; apply (inner_assign ip key id) |].
  intros resp. repeat always_step.
Qed.

Lemma watchdog_ops_app (ev1 ev2 : list event) :
  watchdog_ops (ev1 ++ ev2) = watchdog_ops ev1 ++ watchdog_ops ev2.
Proof. unfold watchdog_ops. apply flat_map_app. Qed.

Lemma pauses_app (ev1 ev2 : list event) : pauses (ev1 ++ ev2) = pauses ev1 ++ pauses ev2.
Proof. unfold pauses. apply flat_map_app. Qed.

Lemma timeouts_app (ev1 ev2 : list event) :
  timeouts (ev1 ++ ev2) = timeouts ev1 ++ timeouts ev2.
Proof. unfold timeouts. apply flat_map_app. Qed.

(** Inner events carry no watchdog operation and no sleep, their requests
    time out after 20 seconds and the key goes to the API only. *)
Lemma inner_events_read ip key (ev : list event) :
  Forall (inner_event ip key) ev ->
  watchdog_ops ev = [] /\ pauses ev = [] /\
  Forall (fun t => t = 20) (timeouts ev) /\ Forall confined ev.
Proof.
  induction 1 as [| e ev He _ (IH1 & IH2 & IH3 & IH4)].
  - repeat split; constructor.
  - destruct e as [c | req d t out | l tm a | op | n]; cbn in He; try contradiction;
      cbn; repeat split; auto; try (constructor; auto; exact I).
    + constructor; [apply He | exact IH3].
    + constructor; [| exact IH4].
      destruct He as [_ [[-> (h & u & ->)] | [[-> ->] | (id & -> & ->)]]]; cbn.
      * intros [H | H]; [destruct h; discriminate | congruence].
      * intros _. exact (full_url_api ip).
      * intros _. exact (full_url_api (ip ++ "/actions")).
Qed.

(** The shape of the trace of a cycle. *)
Lemma cycle_shape (cfg : config) (s s' : state World) r ev :
  cycle cfg s = (r, s', ev) ->
  exists work,
    Forall (inner_event (floatingIP cfg) (apiKey cfg)) work /\
    ev = EvWatchdog WdKick :: work
           ++ match r with Ok _ => [EvSleep 60] | Raise _ => [] end.
Proof.
  unfold cycle. intros H. apply bind_inv in H.
  destruct H as [(a & s1 & ev1 & ev2 & H1 & H2 & ->) | (e & H1 & _)]; [| inversion H1].
  inversion H1; subst. clear H1. apply bind_inv in H2.
  destruct H2 as [(b & s2 & e1 & e2 & H2 & H3 & ->) | (e & H2 & ->)].
  - pose proof (inner_checkService (floatingIP cfg) (apiKey cfg) _ _ _ _ _ _ H2) as I1.
    apply bind_inv in H3.
    match type of H3 with
    | (exists _ _ _ _, ?m _ = _ /\ _) \/ _ =>
        assert (Hb : always (inner_event (floatingIP cfg) (apiKey cfg)) m)
    end.
    { unfold logging.
      repeat first [ apply inner_hasFloatingIP | apply inner_takeFloatingIP
                   | apply inner_checkService | always_step ]. }
    destruct H3 as [(u & s3 & e3 & e4 & H3 & H4 & ->) | (e & H3 & ->)].
    + inversion H4; subst. exists (e1 ++ e3). split.
      * apply Forall_app. split; [exact I1 | apply (Hb _ _ _ _ H3)].
      * cbn. rewrite <- app_assoc. reflexivity.
    + exists (e1 ++ e2). split.
      * apply Forall_app. split; [exact I1 | apply (Hb _ _ _ _ H3)].
      * cbn. rewrite app_nil_r. reflexivity.
  - exists ev2. split.
    + apply (inner_checkService (floatingIP cfg) (apiKey cfg) _ _ _ _ _ _ H2).
    + cbn. rewrite app_nil_r. reflexivity.
Qed.

(** Every cycle begins with one kick of the watchdog; what follows are
    inner events for the configured IP and key; the sleep of 60 seconds
    comes last, and only if the cycle did not raise. *)
Theorem cycle_kick_work_sleep (cfg : config) (s s' : state World) r ev :
  cycle cfg s = (r, s', ev) ->
  exists work,
    Forall (inner_event (floatingIP cfg) (apiKey cfg)) work /\
    ev = EvWatchdog WdKick :: work
           ++ match r with Ok _ => [EvSleep 60] | Raise _ => [] end /\
    watchdog_ops ev = [WdKick] /\
    pauses ev = match r with Ok _ => [60] | Raise _ => [] end.
Proof.
  intros H. destruct (cycle_shape cfg s s' r ev H) as (work & Hin & ->).
  destruct (inner_events_read _ _ _ Hin) as (Hw & Hp & _ & _).
  exists work. split; [exact Hin |]. split; [reflexivity |].
  change (EvWatchdog WdKick :: work ++ ?t) with ([EvWatchdog WdKick] ++ work ++ t).
  rewrite !watchdog_ops_app, !pauses_app, Hw, Hp.
  destruct r; split; reflexivity.
Qed.

(** The loop followed for [n] cycles: [m] cycles were begun, each with one
    kick; each cycle that ran to its end slept once. *)
Lemma cycles_kicks_and_sleeps (cfg : config) (n : nat) :
  forall (s s' : state World) r ev,
    cycles n cfg s = (r, s', ev) ->
    exists m work,
      (m <= n)%nat /\
      watchdog_ops ev = repeat WdKick m /\
      pauses ev = repeat 60 (match r with Ok _ => m | Raise _ => m - 1 end) /\
      match r with Ok _ => m = n | Raise _ => (1 <= m)%nat end /\
      Forall (inner_event (floatingIP cfg) (apiKey cfg)) work /\
      timeouts ev = timeouts work /\
      (Forall confined work -> Forall confined ev).
Proof.
  induction n as [| n IH]; intros s s' r ev H.
  - inversion H; subst. exists 0%nat, []. repeat split; auto.
  - cbn [cycles] in H. apply bind_inv in H.
    destruct H as [([] & s1 & ev1 & ev2 & H1 & H2 & ->) | (e & H1 & ->)].
    + apply cycle_shape in H1. destruct H1 as (w1 & I1 & ->).
      destruct (IH _ _ _ _ H2) as (m & w2 & Hle & Hw & Hp & Hr & I2 & Ht & Hc).
      destruct (inner_events_read _ _ _ I1) as (W1 & P1 & _ & C1).
      exists (S m), (w1 ++ w2).
      change (EvWatchdog WdKick :: w1 ++ [EvSleep 60])
        with ([EvWatchdog WdKick] ++ w1 ++ [EvSleep 60]).
      rewrite !watchdog_ops_app, !pauses_app, !timeouts_app, W1, P1, Hw, Hp, Ht.
      cbn. rewrite app_nil_r.
      split; [lia |]. split; [reflexivity |]. split.
      { destruct r; cbn; [reflexivity |].
        destruct m; [lia |]. cbn. rewrite Nat.sub_0_r. reflexivity. }
      split; [destruct r; lia |].
      split; [apply Forall_app; split; assumption |].
      split; [reflexivity |].
      intros Hcw. apply Forall_app in Hcw. destruct Hcw as [Hc1 Hc2].
      constructor; [exact I |].
      apply Forall_app. split; [| exact (Hc Hc2)].
      apply Forall_app. split; [exact Hc1 | constructor; [exact I | constructor]].
    + apply cycle_shape in H1. destruct H1 as (w1 & I1 & ->).
      destruct (inner_events_read _ _ _ I1) as (W1 & P1 & _ & C1).
      exists 1%nat, w1.
      change (EvWatchdog WdKick :: w1 ++ [])
        with ([EvWatchdog WdKick] ++ w1 ++ []).
      rewrite !watchdog_ops_app, !pauses_app, !timeouts_app, W1, P1.
      cbn. rewrite !app_nil_r.
      split; [lia |]. repeat split; auto.
      intros Hcw. constructor; [exact I | exact Hcw].
Qed.

(** What the start-up of [main] can come to: a clean return, an error, or
    the settings; in no case does it change the state, and it logs only
    when the fail-over is not set up. *)
Lemma main_config_cases (env : environ) (s : state World) :
  (environ_item env "FAILOVER_MODE" = None /\
   main_config env s =
   (Ok None, s, [EvLog INFO "Not set up for automatic failover, exiting" []])) \/
  (exists e, main_config env s = (Raise e, s, [])) \/
  (exists cfg, main_config env s = (Ok (Some cfg), s, [])).
Proof.
  unfold main_config, bind, logging, emit, ret, raise.
  destruct (environ_item env "FAILOVER_MODE") as [m |]; [| left; split; reflexivity].
  right.
  destruct (environ_item env "API_KEY") as [k |]; [| left; eauto].
  destruct (environ_item env "FLOATING_IP") as [ip |]; [| left; eauto].
  destruct (environ_item env "FAILOVER_MAIN"), (environ_item env "FAILOVER_CHECK"),
    (m =? "main")%string; cbn; eauto.
Qed.

(** A run of [main], taken apart. *)
Lemma main_inv (env : environ) (n : nat) (s s' : state World) r ev :
  main n env s = (r, s', ev) ->
  (environ_item env "FAILOVER_MODE" = None /\ r = Ok (Returned 0) /\ s' = s /\
   ev = [EvLog INFO "Not set up for automatic failover, exiting" []]) \/
  (exists e, main_config env s = (Raise e, s, []) /\ r = Raise e /\ s' = s /\ ev = []) \/
  (exists cfg rc evc,
      main_config env s = (Ok (Some cfg), s, []) /\
      cycles n cfg s = (rc, s', evc) /\
      match rc with
      | Ok _ => r = Ok StillRunning /\ ev = EvWatchdog WdStart :: evc
      | Raise e => r = Raise e /\ ev = EvWatchdog WdStart :: evc ++ [EvWatchdog WdStop]
      end).
Proof.
  intros H.
  destruct (main_config_cases env s) as [[Hm Hc] | [[e Hc] | [cfg Hc]]].
  - left. unfold main, bind in H. rewrite Hc in H. cbn in H. inversion H.
    repeat split; auto.
  - right. left. exists e. unfold main, bind in H. rewrite Hc in H. inversion H.
    subst. repeat split; auto.
  - right. right. rewrite (main_run env cfg n s s [] Hc) in H.
    destruct (cycles n cfg s) as [[rc sc] evc] eqn:Hn.
    exists cfg, rc, evc. split; [exact Hc |].
    destruct rc as [[] | e]; inversion H; subst; auto.
Qed.

(** The trace of the loop followed for [n] cycles: the traces of the
    cycles that ran to their end, one after the other, and then, if a cycle
    raised, the trace of that cycle up to the exception. *)
Lemma cycles_traces (cfg : config) (n : nat) :
  forall (s s' : state World) r ev,
    cycles n cfg s = (r, s', ev) ->
    exists works,
      Forall (Forall (inner_event (floatingIP cfg) (apiKey cfg))) works /\
      match r with
      | Ok _ => length works = n /\ ev = concat (map (cycle_trace true) works)
      | Raise _ =>
          exists last,
            Forall (inner_event (floatingIP cfg) (apiKey cfg)) last /\
            (length works < n)%nat /\
            ev = concat (map (cycle_trace true) works) ++ cycle_trace false last
      end.
Proof.
  induction n as [| n IH]; intros s s' r ev H.
  - inversion H; subst. exists []. split; [constructor | split; reflexivity].
  - cbn [cycles] in H. apply bind_inv in H.
    destruct H as [([] & s1 & ev1 & ev2 & H1 & H2 & ->) | (e & H1 & ->)].
    + apply cycle_shape in H1. destruct H1 as (w1 & I1 & ->).
      destruct (IH _ _ _ _ H2) as (works & Hws & Hr).
      exists (w1 :: works). split; [constructor; assumption |].
      destruct r as [[] | e].
      * destruct Hr as [Hlen ->]. split; [cbn; congruence | reflexivity].
      * destruct Hr as (last & Hl & Hlen & ->). exists last.
        split; [exact Hl |]. split; [cbn [length]; lia |].
        cbn [map concat]. unfold cycle_trace at 1. rewrite <- app_assoc. reflexivity.
    + apply cycle_shape in H1. destruct H1 as (w1 & I1 & ->).
      exists []. split; [constructor |]. exists w1.
      split; [exact I1 |]. split; [cbn [length]; lia | reflexivity].
Qed.

(** The watchdog over a whole run of [main].  Once the settings are read,
    the trace of [main] is: the start of the watchdog, first of all; then
    the cycles that ran to their end, each of them the kick, then work that
    neither touches the watchdog nor sleeps, then the sleep of 60 seconds;
    and, exactly when a cycle raised, that cycle from its kick up to the
    exception and the stop of the watchdog, last of all. *)
Theorem main_watchdog_lifecycle
  (env : environ) (cfg : config) (n : nat) (s s' : state World) r ev :
  main_config env s = (Ok (Some cfg), s, []) ->
  main n env s = (r, s', ev) ->
  exists works,
    Forall (Forall (inner_event (floatingIP cfg) (apiKey cfg))) works /\
    match r with
    | Ok _ =>
        length works = n /\
        ev = EvWatchdog WdStart :: concat (map (cycle_trace true) works)
    | Raise _ =>
        exists last,
          Forall (inner_event (floatingIP cfg) (apiKey cfg)) last /\
          (length works < n)%nat /\
          ev = EvWatchdog WdStart
                 :: concat (map (cycle_trace true) works)
                 ++ cycle_trace false last ++ [EvWatchdog WdStop]
    end.
Proof.
  intros Hc H. rewrite (main_run env cfg n s s [] Hc) in H.
  destruct (cycles n cfg s) as [[rc sc] evc] eqn:Hn.
  destruct (cycles_traces cfg n _ _ _ _ Hn) as (works & Hws & Hr).
  exists works. split; [exact Hws |].
  destruct rc as [[] | e]; inversion H; subst; cbn [app].
  - destruct Hr as [Hlen ->]. split; [exact Hlen | reflexivity].
  - destruct Hr as (last & Hl & Hlen & ->). exists last.
    split; [exact Hl |]. split; [exact Hlen |].
    rewrite <- app_assoc. reflexivity.
Qed.

(** Every request of every run of [main] is sent with a timeout of 20
    seconds. *)
Theorem every_request_has_timeout_20
  (env : environ) (n : nat) (s s' : state World) r ev :
  main n env s = (r, s', ev) ->
  Forall (fun t => t = 20) (timeouts ev).
Proof.
  intros H. apply main_inv in H.
  destruct H as [(_ & _ & _ & ->) | [(e & _ & _ & _ & ->) | (cfg & rc & evc & _ & Hn & Hr)]];
    try constructor.
  destruct (cycles_kicks_and_sleeps cfg n _ _ _ _ Hn)
    as (m & w & _ & _ & _ & _ & Iw & Ht & _).
  destruct (inner_events_read _ _ _ Iw) as (_ & _ & T & _).
  destruct rc as [[] | e]; destruct Hr as [_ ->].
  - change (EvWatchdog WdStart :: evc) with ([EvWatchdog WdStart] ++ evc).
    rewrite timeouts_app, Ht. exact T.
  - change (EvWatchdog WdStart :: evc ++ [EvWatchdog WdStop])
      with ([EvWatchdog WdStart] ++ evc ++ [EvWatchdog WdStop]).
    rewrite !timeouts_app, Ht. cbn. rewrite app_nil_r. exact T.
Qed.

(** In every run of [main], a request that carries an [Authorization]
    header or a body goes to a URL under
    [https://api.digitalocean.com/v2/floating_ips/]: the key is sent neither
    to the health-check URLs nor to the metadata service. *)
Theorem api_key_goes_to_the_api_only
  (env : environ) (n : nat) (s s' : state World) r ev :
  main n env s = (r, s', ev) ->
  Forall confined ev.
Proof.
  intros H. apply main_inv in H.
  destruct H as [(_ & _ & _ & ->) | [(e & _ & _ & _ & ->) | (cfg & rc & evc & _ & Hn & Hr)]].
  - constructor; [exact I | constructor].
  - constructor.
  - destruct (cycles_kicks_and_sleeps cfg n _ _ _ _ Hn)
      as (m & w & _ & _ & _ & _ & Iw & _ & Hc).
    destruct (inner_events_read _ _ _ Iw) as (_ & _ & _ & C).
    specialize (Hc C).
    destruct rc as [[] | e]; destruct Hr as [_ ->].
    + constructor; [exact I | exact Hc].
    + constructor; [exact I |]. apply Forall_app. split; [exact Hc |].
      constructor; [exact I | constructor].
Qed.

(** *** Start-up *)

(** Without [FAILOVER_MODE], [main] returns 0 at once, whatever else is
    set or missing: one log record, no request, no watchdog. *)
Theorem main_disabled (env : environ) (n : nat) (s : state World) :
  environ_item env "FAILOVER_MODE" = None ->
  main n env s =
  (Ok (Returned 0), s, [EvLog INFO "Not set up for automatic failover, exiting" []]).
Proof.
  intros H. unfold main, bind, main_config, logging, emit, ret. rewrite H. reflexivity.
Qed.

(** With a mode set, a missing setting ends [main] with an exception
    before the watchdog is started and before any request.  [API_KEY] is
    looked at first, then [FLOATING_IP], then the self-check URLs, which are
    missing when [FAILOVER_CHECK] is not set and [FAILOVER_MAIN] does not
    stand in for it. *)
Theorem startup_errors_come_first (env : environ) (m : string) (n : nat) (s : state World) :
  environ_item env "FAILOVER_MODE" = Some m ->
  (environ_item env "API_KEY" = None ->
   main n env s = (Raise missing_api_key, s, [])) /\
  (forall k,
      environ_item env "API_KEY" = Some k ->
      environ_item env "FLOATING_IP" = None ->
      main n env s = (Raise missing_floating_ip, s, [])) /\
  (forall k ip,
      environ_item env "API_KEY" = Some k ->
      environ_item env "FLOATING_IP" = Some ip ->
      environ_item env "FAILOVER_CHECK" = None ->
      m <> "main" \/ environ_item env "FAILOVER_MAIN" = None ->
      main n env s = (Raise missing_check, s, [])).
Proof.
  intros Hm. repeat split.
  - intros Hk. unfold main, bind, main_config, raise. rewrite Hm, Hk. reflexivity.
  - intros k Hk Hip. unfold main, bind, main_config, raise. rewrite Hm, Hk, Hip.
    reflexivity.
  - intros k ip Hk Hip Hc Hno. unfold main, bind at 1.
    rewrite (main_config_run env m k ip s Hm Hk Hip), Hc.
    destruct Hno as [Hne | Hnm].
    + apply String.eqb_neq in Hne. rewrite Hne. reflexivity.
    + rewrite Hnm, andb_false_r. reflexivity.
Qed.

(** In every mode but [main], and start-up accepts any mode, the self
    check is on the URLs of [FAILOVER_CHECK] whether or not [FAILOVER_MAIN]
    is set, and [FAILOVER_MAIN] and [FAILOVER_MAIN_HOST] are kept for the
    peer check. *)
Theorem other_modes_check_FAILOVER_CHECK
  (env : environ) (m k ip c : string) (s : state World) :
  environ_item env "FAILOVER_MODE" = Some m ->
  m <> "main" ->
  environ_item env "API_KEY" = Some k ->
  environ_item env "FLOATING_IP" = Some ip ->
  environ_item env "FAILOVER_CHECK" = Some c ->
  main_config env s =
  (Ok (Some {| mode := m; apiKey := k; floatingIP := ip;
               checkURLs := Py.split "|" c;
               mainURLs := option_map (Py.split "|") (environ_item env "FAILOVER_MAIN");
               mainHost := environ_item env "FAILOVER_MAIN_HOST" |}), s, []).
Proof.
  intros Hm Hne Hk Hip Hc. rewrite (main_config_run env m k ip s Hm Hk Hip).
  apply String.eqb_neq in Hne. rewrite Hne, Hc. reflexivity.
Qed.

Lemma split_not_nil (sep : ascii) (str : string) : Py.split sep str <> [].
Proof.
  destruct str as [| c str]; cbn; [discriminate |].
  destruct (Ascii.eqb c sep); [discriminate |].
  destruct (Py.split sep str); discriminate.
Qed.

(** Settings that passed start-up have at least one self-check URL, and
    at least one peer URL if any. *)
Lemma main_config_urls (env : environ) (cfg : config) (s s' : state World) ev :
  main_config env s = (Ok (Some cfg), s', ev) ->
  checkURLs cfg <> [] /\ mainURLs cfg <> Some [].
Proof.
  unfold main_config, bind, logging, emit, ret, raise. intros H.
  destruct (environ_item env "FAILOVER_MODE") as [m |]; [| discriminate].
  destruct (environ_item env "API_KEY") as [k |]; [| discriminate].
  destruct (environ_item env "FLOATING_IP") as [ip |]; [| discriminate].
  destruct (if _ : bool then _ else _) as [c |]; [| discriminate].
  inversion H; subst. cbn. split; [apply split_not_nil |].
  destruct (environ_item env "FAILOVER_MAIN") as [u |]; cbn; [| discriminate].
  intros E. injection E as E. exact (split_not_nil _ _ E).
Qed.

(** A check that returns [True] has asked for every URL and each request
    was answered successfully. *)
Lemma checkService_true_requests (urls : list string) (h : option string)
      (s s' : state World) ev :
  checkService urls h s = (Ok true, s', ev) ->
  forallb Urllib.has_type urls = true /\
  map fst (requests ev) = map (probe h) urls /\
  forallb succeeded (map snd (requests ev)) = true.
Proof.
  intros H.
  destruct (checkService_run h urls s) as (r & s1 & ev0 & logs & Hloop & _ & Hlogs & Hrun).
  destruct (checkService_loop_run h urls s) as (r' & s'' & ev' & Hloop' & _ & _ & Hr).
  rewrite Hloop in Hloop'. injection Hloop' as <- <- <-.
  rewrite Hrun in H. destruct r as [[u e] |]; [discriminate |].
  injection H as <- <-.
  change (EvCall (CheckService urls h) :: ev0 ++ logs)
    with ([EvCall (CheckService urls h)] ++ ev0 ++ logs).
  rewrite !requests_app, Hlogs, app_nil_r. exact Hr.
Qed.

(** A cycle starts with the kick and the self check. *)
Lemma cycle_starts_with_self_check (cfg : config) (s s' s1 : state World) r ev b ev1 :
  cycle cfg s = (r, s', ev) ->
  checkService (checkURLs cfg) None s = (Ok b, s1, ev1) ->
  exists rest, ev = EvWatchdog WdKick :: ev1 ++ rest.
Proof.
  unfold cycle. intros H H1. apply bind_inv in H.
  destruct H as [(a & s2 & e1 & e2 & Hk & H2 & ->) | (e & Hk & _)]; [| inversion Hk].
  inversion Hk; subst. clear Hk. apply bind_inv in H2. rewrite H1 in H2.
  destruct H2 as [(b' & s3 & e3 & e4 & Hc & _ & ->) | (e & Hc & _)]; [| discriminate].
  injection Hc as <- <- <-. exists e4. reflexivity.
Qed.

(** The self check is never vacuous: settings that passed start-up have
    a first self-check URL, and a cycle that goes on to ask who holds the IP
    has first sent a request to that URL, without a [Host] header, and had
    it answered successfully. *)
Theorem self_check_is_never_vacuous
  (env : environ) (cfg : config) (s0 s1 : state World) ev0 :
  main_config env s0 = (Ok (Some cfg), s1, ev0) ->
  exists u us,
    checkURLs cfg = u :: us /\
    forall s r s' ev,
      cycle cfg s = (r, s', ev) ->
      ownership_queries ev <> 0%nat ->
      exists out rest,
        requests ev = (probe None u, out) :: rest /\ succeeded out = true.
Proof.
  intros Hc. destruct (main_config_urls env cfg s0 s1 ev0 Hc) as [Hne _].
  destruct (checkURLs cfg) as [| u us] eqn:Hurls; [congruence |].
  exists u, us. split; [reflexivity |].
  intros s r s' ev H Hq.
  destruct (checkService_total (checkURLs cfg) None s) as (b & s2 & ev1 & H1).
  destruct b.
  - destruct (cycle_starts_with_self_check cfg s s' s2 r ev true ev1 H H1) as (rest & ->).
    rewrite Hurls in H1.
    destruct (checkService_true_requests _ _ _ _ _ H1) as (_ & Hfst & Hsnd).
    destruct (requests ev1) as [| [req out] reqs] eqn:Hreq; [discriminate |].
    cbn in Hfst, Hsnd. injection Hfst as -> _.
    apply andb_prop in Hsnd. destruct Hsnd as [Hout _].
    exists out, (reqs ++ requests rest). split; [| exact Hout].
    change (EvWatchdog WdKick :: ev1 ++ rest) with ([EvWatchdog WdKick] ++ ev1 ++ rest).
    rewrite !requests_app, Hreq. reflexivity.
  - rewrite (cycle_unhealthy cfg s s2 ev1 H1) in H. inversion H; subst.
    exfalso. apply Hq. apply checkService_calls in H1. count_calls.
Qed.

Lemma cycle_unsupported (cfg : config) (s s1 : state World) ev1 :
  mode cfg <> "main" ->
  mode cfg <> "standby" ->
  checkService (checkURLs cfg) None s = (Ok true, s1, ev1) ->
  cycle cfg s = (Raise unsupported_mode, s1, EvWatchdog WdKick :: ev1).
Proof.
  intros Hm Hs H1. apply String.eqb_neq in Hm, Hs.
  unfold_cycle. rewrite H1, Hm, Hs. tidy.
Qed.

(** A mode that is neither [main] nor [standby] is found out only by a
    node that is up: the cycle raises after the self check, without an
    ownership query; while the self check fails, the cycle ends normally. *)
Theorem unsupported_mode_needs_healthy_node (cfg : config) (s s1 : state World) ev1 (b : bool) :
  mode cfg <> "main" ->
  mode cfg <> "standby" ->
  checkService (checkURLs cfg) None s = (Ok b, s1, ev1) ->
  cycle cfg s =
  if b then (Raise unsupported_mode, s1, EvWatchdog WdKick :: ev1)
  else (Ok tt, s1,
        EvWatchdog WdKick :: ev1 ++ [EvLog ERROR "Service not running!" []; EvSleep 60]).
Proof.
  intros Hm Hs H1. destruct b.
  - apply (cycle_unsupported cfg s s1 ev1 Hm Hs H1).
  - apply (cycle_unhealthy cfg s s1 ev1 H1).
Qed.

(** *** More on the ownership client *)

(** [takeFloatingIP]: without the droplet id it raises before it sends
    anything of its own; with it, it sends one POST for that droplet and
    returns exactly when the answer has status 200 or 201.  An exception of
    [urlopen] is passed on; any other status is logged with the body of the
    answer and raised as a failure that names the status, unless reading
    that body raises, which is then the exception. *)
Theorem takeFloatingIP_outcomes (ip k : string) (s : state World) :
  (forall e s1 ev1,
      getDropletID s = (Raise e, s1, ev1) ->
      takeFloatingIP ip k s = (Raise e, s1, EvCall (TakeFloatingIP ip k) :: ev1)) /\
  (forall id s1 ev1,
      getDropletID s = (Ok id, s1, ev1) ->
      exists r s' logs,
        takeFloatingIP ip k s =
        (r, s',
         EvCall (TakeFloatingIP ip k) :: ev1
           ++ EvRequest (assign_request ip k) (assign_body id) 20
                (fst (urlopen (assign_request ip k) (assign_body id) 20 (world s1)))
           :: logs) /\
        match fst (urlopen (assign_request ip k) (assign_body id) 20 (world s1)) with
        | Raise e => r = Raise e /\ logs = []
        | Ok resp =>
            if (status resp =? 200) || (status resp =? 201)
            then r = Ok tt /\ logs = [EvLog INFO "Acquired the floating IP {0}" [LStr ip]]
            else match body resp with
                 | Ok b =>
                     r = Raise (acquire_failed (status resp)) /\
                     logs = [EvLog ERROR "response body: {0}" [LBody b]]
                 | Raise e => r = Raise e /\ logs = []
                 end
        end).
Proof.
  split.
  - intros e s1 ev1 Hd. unfold takeFloatingIP, bind at 1 2, emit. rewrite Hd. reflexivity.
  - intros id s1 ev1 Hd. rewrite (takeFloatingIP_run ip k s s1 id ev1 Hd).
    eexists _, _, _. split; [reflexivity |].
    destruct (fst (urlopen (assign_request ip k) (assign_body id) 20 (world s1)))
      as [resp | e]; [| auto].
    destruct ((status resp =? 200) || (status resp =? 201)); auto.
    destruct (body resp); auto.
Qed.

(** [hasFloatingIP] returns the comparison of this droplet's id with the
    id the API names as the owner: for two numbers, whether they are equal.
    When neither is there (a [droplet_id] that is [None] in the metadata, no
    owner in the answer), the comparison is [None == None] and the node
    takes itself for the owner. *)
Theorem hasFloatingIP_compares_ids
  (ip k : string) (s s1 : state World) (id : json) ev1 resp data owner :
  getDropletID s = (Ok id, s1, ev1) ->
  fst (urlopen (ownership_request ip k) None 20 (world s1)) = Ok resp ->
  body resp = Ok (Some data) ->
  _item data owner_path JNull = Ok owner ->
  exists s' ev,
    hasFloatingIP ip k s = (Ok (Py.eq id owner), s', ev) /\
    (forall n m, id = JInt n -> owner = JInt m -> Py.eq id owner = (n =? m)) /\
    (id = JNull -> owner = JNull -> Py.eq id owner = true).
Proof.
  intros Hd Ho Hb Hi. rewrite (hasFloatingIP_run ip k s s1 id ev1 Hd), Ho, Hb, Hi.
  eexists _, _. split; [reflexivity |]. split.
  - intros n m -> ->. reflexivity.
  - intros -> ->. reflexivity.
Qed.

(** When [getMetadata] fetches (the cache is empty or not to be used), it
    sends one request, to the metadata service; what it returns is what
    [_metadata] holds afterwards, and a fetch that fails leaves [_metadata]
    as it was. *)
Theorem getMetadata_fetches_once (cache : bool) (s s' : state World) r ev :
  _metadata s = JNull \/ cache = false ->
  getMetadata cache s = (r, s', ev) ->
  map fst (requests ev) = [probe None metadata_url] /\
  timeouts ev = [20] /\
  match r with
  | Ok v => _metadata s' = v
  | Raise _ => _metadata s' = _metadata s
  end.
Proof.
  intros Hc H. rewrite (getMetadata_fetch cache s Hc) in H. cbn zeta in H.
  destruct (_get_result metadata_url _) as [[v |] | e]; inversion H; subst;
    repeat split.
Qed.

(** After [getDropletID] returned an id, [_metadata] holds a document
    with that [droplet_id]. *)
Lemma getDropletID_sets (s s1 : state World) (id : json) ev :
  getDropletID s = (Ok id, s1, ev) ->
  _metadata s1 <> JNull /\ Py.subscript (_metadata s1) (KStr "droplet_id") = Ok id.
Proof.
  intros H. unfold getDropletID in H. apply bind_inv in H.
  destruct H as [(m & s1' & eva & evb & Hm & Hl & ->) | (e & _ & He)]; [| discriminate].
  unfold lift in Hl. injection Hl as Hsub Hs1 Hevb. subst s1' evb.
  rewrite (getMetadata_stores _ _ _ _ Hm). split; [| exact Hsub].
  intros ->. rewrite subscript_None in Hsub. discriminate.
Qed.

(** A main node that is up and does not hold the IP: the cycle sends, as
    its last request, the POST that assigns the configured IP to the droplet
    whose id [hasFloatingIP] has just used, without asking the metadata
    service again; on status 200 or 201 the cycle ends in its sleep. *)
Theorem main_reclaims_for_this_droplet
  (cfg : config) (s s1 s2 : state World) ev1 ev2 :
  mode cfg = "main" ->
  checkService (checkURLs cfg) None s = (Ok true, s1, ev1) ->
  hasFloatingIP (floatingIP cfg) (apiKey cfg) s1 = (Ok false, s2, ev2) ->
  exists id r s' logs,
    Py.subscript (_metadata s2) (KStr "droplet_id") = Ok id /\
    cycle cfg s =
    (r, s',
     EvWatchdog WdKick :: ev1 ++ ev2
       ++ [log_lost; EvCall (TakeFloatingIP (floatingIP cfg) (apiKey cfg));
           EvCall (GetMetadata true);
           EvRequest (assign_request (floatingIP cfg) (apiKey cfg)) (assign_body id) 20
             (fst (urlopen (assign_request (floatingIP cfg) (apiKey cfg))
                     (assign_body id) 20 (world s2)))]
       ++ logs) /\
    (forall resp,
        fst (urlopen (assign_request (floatingIP cfg) (apiKey cfg))
               (assign_body id) 20 (world s2)) = Ok resp ->
        status resp = 200 \/ status resp = 201 ->
        r = Ok tt /\
        logs = [EvLog INFO "Acquired the floating IP {0}" [LStr (floatingIP cfg)];
                EvSleep 60]).
Proof.
  intros Hm H1 H2.
  destruct (hasFloatingIP_returns _ _ _ _ _ _ H2)
    as (id & s1' & e1' & resp0 & data & owner & Hd & _ & _ & _ & _).
  destruct (getDropletID_sets _ _ _ _ Hd) as [Hnn Hsub].
  assert (Hmeta : _metadata s2 = _metadata s1').
  { rewrite (hasFloatingIP_run _ _ _ _ _ _ Hd) in H2. inversion H2. reflexivity. }
  assert (Hd2 : getDropletID s2 = (Ok id, s2, [EvCall (GetMetadata true)])).
  { rewrite getDropletID_cached by congruence. rewrite Hmeta, Hsub. reflexivity. }
  rewrite (cycle_main_lost cfg s s1 s2 ev1 ev2 Hm H1 H2).
  rewrite (takeFloatingIP_run _ _ s2 s2 id _ Hd2).
  exists id. rewrite Hmeta.
  destruct (fst (urlopen (assign_request (floatingIP cfg) (apiKey cfg))
                   (assign_body id) 20 (world s2))) as [resp | e].
  - destruct ((status resp =? 200) || (status resp =? 201)) eqn:Hst;
      [| destruct (body resp)].
    + eexists _, _, _. split; [exact Hsub |]. split.
      * cbn [then_sleep after app]. rewrite <- ?app_assoc. cbn [app]. reflexivity.
      * intros resp' E _. injection E as <-. split; reflexivity.
    + eexists _, _, _. split; [exact Hsub |]. split.
      * cbn [then_sleep after app]. rewrite <- ?app_assoc. cbn [app]. reflexivity.
      * intros resp' E [Hs | Hs]; injection E as <-; rewrite Hs in Hst; discriminate.
    + eexists _, _, _. split; [exact Hsub |]. split.
      * cbn [then_sleep after app]. rewrite <- ?app_assoc. cbn [app]. reflexivity.
      * intros resp' E [Hs | Hs]; injection E as <-; rewrite Hs in Hst; discriminate.
  - eexists _, _, _. split; [exact Hsub |]. split.
    + cbn [then_sleep after app]. rewrite <- ?app_assoc. cbn [app]. reflexivity.
    + intros resp' E. discriminate.
Qed.

(** *** The calls of a cycle *)

(** The counted calls of a cycle are one of five sequences: the self
    check alone; the self check and the ownership query; these and the
    acquisition, on a main node; these and the peer check, on a standby
    node with peer URLs; or these, the peer check and the acquisition.  So
    [takeFloatingIP] is called at most once in a cycle and never without
    [hasFloatingIP] before it, and a main node never checks a peer. *)
Theorem cycle_calls_shape (cfg : config) (s s' : state World) r ev :
  cycle cfg s = (r, s', ev) ->
  let C := CheckService (checkURLs cfg) None in
  let H := HasFloatingIP (floatingIP cfg) (apiKey cfg) in
  let T := TakeFloatingIP (floatingIP cfg) (apiKey cfg) in
  let G := GetMetadata true in
  calls ev = [C] \/
  calls ev = [C; H; G] \/
  (mode cfg = "main" /\ calls ev = [C; H; G; T; G]) \/
  (exists peer,
      mode cfg = "standby" /\ mainURLs cfg = Some peer /\
      (calls ev = [C; H; G; CheckService peer (mainHost cfg)] \/
       calls ev = [C; H; G; CheckService peer (mainHost cfg); T; G])).
Proof.
  intros Hc. cbv zeta.
  destruct (checkService_total (checkURLs cfg) None s) as (b & s1 & ev1 & H1).
  pose proof (checkService_calls _ _ _ _ _ _ H1) as C1.
  destruct b.
  2:{ rewrite (cycle_unhealthy cfg s s1 ev1 H1) in Hc. inversion Hc; subst.
      left. count_calls. }
  destruct (String.eqb_spec (mode cfg) "main") as [Hm | Hm];
    [| destruct (String.eqb_spec (mode cfg) "standby") as [Hs | Hs]].
  - destruct (hasFloatingIP (floatingIP cfg) (apiKey cfg) s1) as [[[owned | e] s2] ev2] eqn:H2;
      pose proof (hasFloatingIP_calls _ _ _ _ _ _ H2) as C2.
    + destruct owned.
      * rewrite (cycle_owned cfg s s1 s2 ev1 ev2 (or_introl Hm) H1 H2) in Hc.
        inversion Hc; subst. right; left. count_calls.
      * rewrite (cycle_main_lost cfg s s1 s2 ev1 ev2 Hm H1 H2) in Hc.
        destruct (takeFloatingIP (floatingIP cfg) (apiKey cfg) s2) as [[[[] | e] s3] ev3] eqn:H3;
          apply takeFloatingIP_calls in H3; cbn [after then_sleep] in Hc;
          inversion Hc; subst; right; right; left; (split; [exact Hm |]); count_calls.
    + rewrite (cycle_query_raises cfg s s1 s2 ev1 ev2 e (or_introl Hm) H1 H2) in Hc.
      inversion Hc; subst. right; left. count_calls.
  - destruct (hasFloatingIP (floatingIP cfg) (apiKey cfg) s1) as [[[owned | e] s2] ev2] eqn:H2;
      pose proof (hasFloatingIP_calls _ _ _ _ _ _ H2) as C2.
    + destruct owned.
      * rewrite (cycle_owned cfg s s1 s2 ev1 ev2 (or_intror Hs) H1 H2) in Hc.
        inversion Hc; subst. right; left. count_calls.
      * destruct (mainURLs cfg) as [peer |] eqn:Hp.
        -- destruct (checkService_total peer (mainHost cfg) s2) as (up & s3 & ev3 & H3).
           pose proof (checkService_calls _ _ _ _ _ _ H3) as C3.
           right; right; right. exists peer. split; [exact Hs |]. split; [reflexivity |].
           destruct up.
           ++ rewrite (cycle_standby_peer_up cfg peer s s1 s2 s3 ev1 ev2 ev3 Hs Hp H1 H2 H3)
                in Hc.
              inversion Hc; subst. left. count_calls.
           ++ rewrite (cycle_standby_peer_down cfg peer s s1 s2 s3 ev1 ev2 ev3 Hs Hp H1 H2 H3)
                in Hc.
              destruct (takeFloatingIP (floatingIP cfg) (apiKey cfg) s3)
                as [[[[] | e] s4] ev4] eqn:H4;
                apply takeFloatingIP_calls in H4; cbn [after then_sleep] in Hc;
                inversion Hc; subst; right; count_calls.
        -- rewrite (cycle_standby_no_peer cfg s s1 s2 ev1 ev2 Hs Hp H1 H2) in Hc.
           inversion Hc; subst. right; left. count_calls.
    + rewrite (cycle_query_raises cfg s s1 s2 ev1 ev2 e (or_intror Hs) H1 H2) in Hc.
      inversion Hc; subst. right; left. count_calls.
  - rewrite (cycle_unsupported cfg s s1 ev1 Hm Hs H1) in Hc. inversion Hc; subst.
    left. count_calls.
Qed.

(** *** The log of the health probe *)

Lemma checkService_loop_logs_nothing (h : option string) (urls : list string) :
  always (fun e => match e with EvRequest _ _ _ _ => True | _ => False end)
         (checkService_loop urls h).
Proof.
  induction urls as [| u urls IH]; cbn [checkService_loop].
  - apply always_ret.
  - apply always_bind.
    + apply always_attempt. intros s r s' ev H.
      destruct (Urllib.has_type u) eqn:Hu.
      * rewrite (_get_run u h s Hu) in H. inversion H.
        constructor; [exact I | constructor].
      * rewrite (_get_rejected u h s Hu) in H. inversion H. constructor.
    + intros [b | e]; [exact IH | apply always_ret].
Qed.

Lemma only_requests_no_logs (ev : list event) :
  Forall (fun e => match e with EvRequest _ _ _ _ => True | _ => False end) ev ->
  log_records ev = [].
Proof.
  induction 1 as [| e ev He _ IH]; [reflexivity |].
  destruct e; try contradiction. exact IH.
Qed.

(** [checkService] writes no log record when it returns [True].  When it
    returns [False] it writes exactly one, as the last thing it does: the
    ERROR record for the URL at which it stopped, the one that [Request]
    rejected or whose request, the last one sent, failed, together with the
    exception that stopped it. *)
Theorem checkService_logs_the_failure (urls : list string) (h : option string) (s : state World) :
  exists b s' ev,
    checkService urls h s = (Ok b, s', ev) /\
    if b then log_records ev = []
    else exists pre u post e work,
        urls = pre ++ u :: post /\
        ev = work ++ [checkService_log u e] /\
        log_records ev = [checkService_log u e] /\
        ((Urllib.has_type u = false /\ e = ValueError /\
          map fst (requests ev) = map (probe h) pre) \/
         (exists outs out,
             Urllib.has_type u = true /\
             map fst (requests ev) = map (probe h) (pre ++ [u]) /\
             map snd (requests ev) = outs ++ [out] /\
             _get_result u out = Raise e)).
Proof.
  destruct (checkService_loop_run h urls s) as (r & s' & ev0 & Hloop & _ & _ & Hr).
  pose proof (only_requests_no_logs _ (checkService_loop_logs_nothing h urls _ _ _ _ Hloop))
    as Hnl.
  destruct r as [[u e] |].
  - destruct Hr as (pre & post & outs & Hurls & _ & _ & Hlast).
    exists false, s', (EvCall (CheckService urls h) :: ev0 ++ [checkService_log u e]).
    split.
    + unfold checkService, bind, emit, logging, ret. rewrite Hloop.
      destruct e; cbn; rewrite ?app_nil_r; reflexivity.
    + exists pre, u, post, e, (EvCall (CheckService urls h) :: ev0).
      split; [exact Hurls |]. split; [reflexivity |].
      assert (Hlog : log_records [checkService_log u e] = [checkService_log u e])
        by (destruct e; reflexivity).
      assert (Hreq : requests [checkService_log u e] = [])
        by (destruct e; reflexivity).
      split.
      * unfold log_records in *. cbn. rewrite filter_app, Hnl, Hlog. reflexivity.
      * change (EvCall (CheckService urls h) :: ev0 ++ [checkService_log u e])
          with ([EvCall (CheckService urls h)] ++ ev0 ++ [checkService_log u e]).
        rewrite !requests_app, Hreq, app_nil_r. cbn [requests flat_map app].
        destruct Hlast as [(Hu & He & Hfst & _) | (out & Hu & Hfst & Hsnd & Hfail)].
        -- left. auto.
        -- right. exists outs, out. auto.
  - exists true, s', (EvCall (CheckService urls h) :: ev0). split.
    + unfold checkService, bind, emit, logging, ret. rewrite Hloop.
      cbn. rewrite app_nil_r. reflexivity.
    + unfold log_records in *. cbn. exact Hnl.
Qed.

(** *** The watchdog thread *)







End Properties.

(** ** The program on the scenarios *)

(** Three URLs of which the second answers 204: [checkService] returns
    [False] and never asks for the third. *)
Example checkService_stops_at_second :
  checkService unit (Scenario.urlopen Scenario.second_fails)
    ["http://a/"; "http://b/"; "http://c/"] None Scenario.start
  = (Ok false, Scenario.start,
     [EvCall (CheckService ["http://a/"; "http://b/"; "http://c/"] None);
      EvRequest {| url := "http://a/"; headers := [] |} None 20
        (Ok {| status := 200; body := Ok None |});
      EvRequest {| url := "http://b/"; headers := [] |} None 20
        (Ok {| status := 204; body := Ok None |});
      checkService_log "http://b/"
        (Exception_ (Fmt "Failed to GET '{0}' (code {1})" [AStr "http://b/"; AInt 204]))]).
Proof. reflexivity. Qed.

(** A 200 whose body cannot be read: [checkService] returns [False]. *)
Example checkService_body_stalls :
  checkService unit (Scenario.urlopen Scenario.stalls) [Scenario.self_url] None
    Scenario.start
  = (Ok false, Scenario.start,
     [EvCall (CheckService [Scenario.self_url] None);
      EvRequest {| url := Scenario.self_url; headers := [] |} None 20
        (Ok {| status := 200; body := Raise (URLError "timed out") |});
      checkService_log Scenario.self_url (URLError "timed out")]).
Proof. reflexivity. Qed.

(** A URL without a type, here the empty one that an empty
    [FAILOVER_CHECK] gives: [Request] raises, nothing is sent and
    [checkService] returns [False]. *)
Example checkService_rejected_url :
  Py.split "|" "" = [""] /\
  checkService unit (Scenario.urlopen Scenario.holding) [""] None Scenario.start
  = (Ok false, Scenario.start,
     [EvCall (CheckService [""] None); checkService_log "" ValueError]).
Proof. split; reflexivity. Qed.

(** Blanks around a URL, as in a [FAILOVER_CHECK] written with blanks
    around the bar: [Request] drops them. *)
Example checkService_blanks_around_url :
  Py.split "|" "http://a/ | http://c/" = ["http://a/ "; " http://c/"] /\
  checkService unit (Scenario.urlopen Scenario.second_fails)
    ["http://a/ "; " http://c/"] None Scenario.start
  = (Ok true, Scenario.start,
     [EvCall (CheckService ["http://a/ "; " http://c/"] None);
      EvRequest {| url := "http://a/"; headers := [] |} None 20
        (Ok {| status := 200; body := Ok None |});
      EvRequest {| url := "http://c/"; headers := [] |} None 20
        (Ok {| status := 200; body := Ok None |})]).
Proof. split; reflexivity. Qed.

(** C2 on a standby node that is down while the peer is down too. *)
Lemma unhealthy_node_is_passive_witness :
  exists ev,
    cycle unit (Scenario.urlopen Scenario.self_down) Scenario.standby_cfg Scenario.start
    = (Ok tt, Scenario.start, ev) /\
    ownership_queries ev = 0%nat /\
    acquire_calls ev = 0%nat /\
    calls ev = [CheckService [Scenario.self_url] None].
Proof.
  refine (unhealthy_node_is_passive unit (Scenario.urlopen Scenario.self_down)
            Scenario.standby_cfg Scenario.start Scenario.start _ _).
  reflexivity.
Defined.

(** C3 on a main node that is up and finds the IP with droplet 9. *)
Lemma main_role_reclaims_when_lost_witness :
  exists r s' ev,
    cycle unit (Scenario.urlopen Scenario.peer_down) Scenario.main_cfg Scenario.start
    = (r, s', ev) /\
    acquire_calls ev = 1%nat /\
    check_calls ev = [CheckService [Scenario.self_url] None].
Proof.
  refine (main_role_reclaims_when_lost unit (Scenario.urlopen Scenario.peer_down)
            Scenario.main_cfg Scenario.start Scenario.start Scenario.identified
            _ _ false eq_refl _ _); reflexivity.
Defined.

(** C4 on a standby node that is up, does not hold the IP and finds the
    peer down. *)
Lemma standby_role_takes_over_when_peer_down_witness :
  exists r s' ev,
    cycle unit (Scenario.urlopen Scenario.peer_down) Scenario.standby_cfg Scenario.start
    = (r, s', ev) /\
    acquire_calls ev = 1%nat /\
    check_calls ev =
      [CheckService [Scenario.self_url] None;
       CheckService [Scenario.peer_url] (Some "www.example.org")].
Proof.
  refine (proj2 (standby_role_takes_over_when_peer_down unit
                   (Scenario.urlopen Scenario.peer_down)
                   Scenario.standby_cfg Scenario.start Scenario.start Scenario.identified
                   _ _ false eq_refl _ _)
                eq_refl [Scenario.peer_url] false Scenario.identified _ eq_refl _);
    reflexivity.
Defined.

(** C5, refuted: a standby node without [FAILOVER_MAIN] starts; here it is
    down itself, the watchdog is started, the self check runs and the cycle
    ends in its sleep, with no error at all. *)
Lemma standby_without_peer_starts :
  environ_item Scenario.standby_env_no_peer "FAILOVER_MODE" = Some "standby" /\
  environ_item Scenario.standby_env_no_peer "FAILOVER_MAIN" = None /\
  main unit (Scenario.urlopen Scenario.self_down) 1%nat Scenario.standby_env_no_peer
       Scenario.start
  = (Ok StillRunning, Scenario.start,
     [EvWatchdog WdStart; EvWatchdog WdKick;
      EvCall (CheckService [Scenario.self_url] None);
      EvRequest {| url := Scenario.self_url; headers := [] |} None 20
        (Raise (HTTPError 503));
      EvLog ERROR "checkService failed (code {0}): {1}" [LInt 503; LStr Scenario.self_url];
      EvLog ERROR "Service not running!" [];
      EvSleep 60]).
Proof. repeat split. Qed.

(** C5 as the code has it, on a standby node without [FAILOVER_MAIN] that
    is up and does not hold the IP. *)
Lemma standby_without_peer_fails_in_cycle_witness :
  exists s' ev,
    main unit (Scenario.urlopen Scenario.peer_down) 3%nat Scenario.standby_env_no_peer
         Scenario.start
    = (Raise missing_peer, s', ev).
Proof.
  destruct (standby_without_peer_fails_in_cycle unit (Scenario.urlopen Scenario.peer_down)
              Scenario.standby_env_no_peer "secret" "203.0.113.5" Scenario.self_url
              eq_refl eq_refl eq_refl eq_refl eq_refl)
    as (cfg & _ & _ & Hurls & _ & _ & _ & Hraise).
  eexists _, _.
  refine (proj2 (proj2 (proj2
            (Hraise Scenario.start Scenario.start Scenario.identified _ _ _ _))) 2%nat);
    [rewrite Hurls |]; reflexivity.
Defined.

(** C6, refuted: the API cannot be reached in the first cycle of a main
    node.  Followed for three cycles, [main] ends in the first one with the
    exception of [urlopen]: one kick, no sleep, the watchdog stopped. *)
Lemma ownership_error_stops_main :
  main unit (Scenario.urlopen Scenario.api_down) 3%nat Scenario.main_env Scenario.start
  = (Raise (URLError "Connection refused"), Scenario.identified,
     [EvWatchdog WdStart; EvWatchdog WdKick;
      EvCall (CheckService [Scenario.self_url] None);
      EvRequest {| url := Scenario.self_url; headers := [] |} None 20 Scenario.ok_page;
      EvCall (HasFloatingIP "203.0.113.5" "secret");
      EvCall (GetMetadata true);
      EvRequest {| url := metadata_url; headers := [] |} None 20
        (snd Scenario.this_droplet);
      EvRequest (ownership_request "203.0.113.5" "secret") None 20
        (Raise (URLError "Connection refused"));
      EvWatchdog WdStop]).
Proof. reflexivity. Qed.

(** C6 as the code has it, on the same run. *)
Lemma ownership_error_ends_the_run_witness :
  exists s' ev,
    cycles unit (Scenario.urlopen Scenario.api_down) 3%nat Scenario.main_cfg Scenario.start
    = (Raise (URLError "Connection refused"), s', ev).
Proof.
  eexists _, _.
  refine (proj1 (ownership_error_ends_the_run unit (Scenario.urlopen Scenario.api_down)
                   Scenario.main_cfg 0%nat Scenario.start Scenario.start Scenario.start
                   [] _ (or_introl eq_refl) eq_refl _)
                (URLError "Connection refused") Scenario.identified _ _ 2%nat);
    reflexivity.
Defined.

(** C7, refuted: the API answers 200 with a JSON object that has no
    [floating_ip]; [hasFloatingIP] returns [False]. *)
Lemma hasFloatingIP_accepts_odd_shape :
  Scenario.answer Scenario.odd_shape Scenario.ip_url
  = Ok {| status := 200; body := Ok (Some (JDict [("message", JStr "ok")])) |} /\
  _item (JDict [("message", JStr "ok")]) owner_path JNull = Ok JNull /\
  fst (fst (hasFloatingIP unit (Scenario.urlopen Scenario.odd_shape)
              "203.0.113.5" "secret" Scenario.start))
  = Ok false.
Proof. repeat split. Qed.

(** C7 as the code has it, on the same answer. *)
Lemma hasFloatingIP_on_missing_owner_witness :
  exists s' ev,
    hasFloatingIP unit (Scenario.urlopen Scenario.odd_shape) "203.0.113.5" "secret"
      Scenario.start
    = (Ok false, s', ev).
Proof.
  refine (proj2 (proj2 (proj2 (proj1 (proj2
            (hasFloatingIP_on_missing_owner unit (Scenario.urlopen Scenario.odd_shape)
               "203.0.113.5" "secret" Scenario.start))
            (JInt 7) Scenario.identified _ _)))
            _ (JDict [("message", JStr "ok")]) _ _ _ _);
    try reflexivity.
  discriminate.
Defined.

(** C9 on a main node with both [FAILOVER_MAIN] and [FAILOVER_CHECK]
    set. *)
Lemma main_mode_self_check_urls_witness :
  exists cfg,
    checkURLs cfg = ["http://a/"; "http://b/"] /\
    (forall s, main_config unit Scenario.main_env_override s = (Ok (Some cfg), s, [])) /\
    (forall n s r s' ev,
        main unit (Scenario.urlopen Scenario.second_fails) n Scenario.main_env_override s
        = (r, s', ev) ->
        exists m, (m <= n)%nat /\
                  check_calls ev = repeat (CheckService ["http://a/"; "http://b/"] None) m /\
                  (r = Ok StillRunning -> m = n)).
Proof.
  refine (main_mode_self_check_urls unit (Scenario.urlopen Scenario.second_fails)
            Scenario.main_env_override "secret" "203.0.113.5" "http://a/|http://b/"
            eq_refl eq_refl eq_refl (or_introl eq_refl)).
Defined.

(** C10, refuted: the metadata service answers with the document [null].
    [getMetadata] returns it, [_metadata] is still [None], and the next
    [getDropletID] asks the metadata service again. *)
Lemma null_metadata_is_not_cached :
  getMetadata unit (Scenario.urlopen Scenario.null_metadata) true Scenario.start
  = (Ok JNull, Scenario.start,
     [EvCall (GetMetadata true);
      EvRequest {| url := metadata_url; headers := [] |} None 20
        (Ok {| status := 200; body := Ok (Some JNull) |})]) /\
  getDropletID unit (Scenario.urlopen Scenario.null_metadata) Scenario.start
  = (Raise TypeError, Scenario.start,
     [EvCall (GetMetadata true);
      EvRequest {| url := metadata_url; headers := [] |} None 20
        (Ok {| status := 200; body := Ok (Some JNull) |})]).
Proof. split; reflexivity. Qed.

(** C10 as the code has it, after the first look-up of the droplet id. *)
Lemma droplet_id_is_cached_witness :
  getDropletID unit (Scenario.urlopen Scenario.api_down) Scenario.identified
  = (Ok (JInt 7), Scenario.identified, [EvCall (GetMetadata true)]).
Proof.
  refine (proj1 (proj2 (droplet_id_is_cached unit (Scenario.urlopen Scenario.api_down)
                          Scenario.start Scenario.identified (JInt 7) _ _))
                Scenario.identified eq_refl).
  reflexivity.
Defined.

(** ** Further runs on the scenarios *)

(** The index [-1] on the empty list. *)
Lemma _item_list_index_witness :
  _item (JList []) [KInt (-1)] JNull = Raise IndexError.
Proof.
  refine (proj2 (proj2 (proj2 (_item_list_index [] (-1) [] JNull))) _).
  reflexivity.
Defined.

(** A cycle of a main node that takes the IP back. *)
Lemma cycle_kick_work_sleep_witness :
  exists work,
    Forall (inner_event "203.0.113.5" "secret") work /\
    snd Scenario.reclaim
    = EvWatchdog WdKick :: work
        ++ match fst (fst Scenario.reclaim) with Ok _ => [EvSleep 60] | Raise _ => [] end /\
    watchdog_ops (snd Scenario.reclaim) = [WdKick] /\
    pauses (snd Scenario.reclaim)
    = match fst (fst Scenario.reclaim) with Ok _ => [60] | Raise _ => [] end.
Proof.
  refine (cycle_kick_work_sleep unit (Scenario.urlopen Scenario.peer_down)
            Scenario.main_cfg Scenario.start (snd (fst Scenario.reclaim))
            (fst (fst Scenario.reclaim)) (snd Scenario.reclaim) _).
  reflexivity.
Defined.

(** The watchdog over a run that the API ends in its first cycle. *)
Lemma main_watchdog_lifecycle_witness :
  exists works,
    Forall (Forall (inner_event "203.0.113.5" "secret")) works /\
    exists last,
      Forall (inner_event "203.0.113.5" "secret") last /\
      (length works < 3)%nat /\
      snd Scenario.failing_run
      = EvWatchdog WdStart
          :: concat (map (cycle_trace true) works)
          ++ cycle_trace false last ++ [EvWatchdog WdStop].
Proof.
  refine (main_watchdog_lifecycle unit (Scenario.urlopen Scenario.api_down)
            Scenario.main_env Scenario.main_cfg 3 Scenario.start
            (snd (fst Scenario.failing_run)) (fst (fst Scenario.failing_run))
            (snd Scenario.failing_run) _ _); reflexivity.
Defined.

Lemma every_request_has_timeout_20_witness :
  Forall (fun t => t = 20) (timeouts (snd Scenario.steady_run)).
Proof.
  refine (every_request_has_timeout_20 unit (Scenario.urlopen Scenario.holding)
            Scenario.main_env 2 Scenario.start
            (snd (fst Scenario.steady_run)) (fst (fst Scenario.steady_run))
            (snd Scenario.steady_run) _).
  reflexivity.
Defined.

Lemma api_key_goes_to_the_api_only_witness :
  Forall confined (snd Scenario.steady_run).
Proof.
  refine (api_key_goes_to_the_api_only unit (Scenario.urlopen Scenario.holding)
            Scenario.main_env 2 Scenario.start
            (snd (fst Scenario.steady_run)) (fst (fst Scenario.steady_run))
            (snd Scenario.steady_run) _).
  reflexivity.
Defined.

(** An environment without [FAILOVER_MODE]. *)
Lemma main_disabled_witness :
  main unit (Scenario.urlopen Scenario.peer_down) 3 Scenario.common Scenario.start
  = (Ok (Returned 0), Scenario.start,
     [EvLog INFO "Not set up for automatic failover, exiting" []]).
Proof.
  refine (main_disabled unit (Scenario.urlopen Scenario.peer_down)
            Scenario.common 3 Scenario.start _).
  reflexivity.
Defined.

(** An environment with nothing but the mode. *)
Lemma startup_errors_come_first_witness :
  main unit (Scenario.urlopen Scenario.peer_down) 3 [("FAILOVER_MODE", "standby")]
       Scenario.start
  = (Raise missing_api_key, Scenario.start, []).
Proof.
  refine (proj1 (startup_errors_come_first unit (Scenario.urlopen Scenario.peer_down)
                   [("FAILOVER_MODE", "standby")] "standby" 3 Scenario.start _) _);
    reflexivity.
Defined.

Lemma other_modes_check_FAILOVER_CHECK_witness :
  main_config unit Scenario.standby_env Scenario.start
  = (Ok (Some Scenario.standby_cfg), Scenario.start, []).
Proof.
  refine (other_modes_check_FAILOVER_CHECK unit Scenario.standby_env
            "standby" "secret" "203.0.113.5" Scenario.self_url Scenario.start
            _ _ _ _ _); try reflexivity.
  discriminate.
Defined.

Lemma self_check_is_never_vacuous_witness :
  exists u us,
    checkURLs Scenario.main_cfg = u :: us /\
    forall s r s' ev,
      cycle unit (Scenario.urlopen Scenario.holding) Scenario.main_cfg s = (r, s', ev) ->
      ownership_queries ev <> 0%nat ->
      exists out rest,
        requests ev = (probe None u, out) :: rest /\ succeeded out = true.
Proof.
  refine (self_check_is_never_vacuous unit (Scenario.urlopen Scenario.holding)
            Scenario.main_env Scenario.main_cfg Scenario.start Scenario.start [] _).
  reflexivity.
Defined.

(** A node in the unknown mode [primary] that is up. *)
Lemma unsupported_mode_needs_healthy_node_witness :
  cycle unit (Scenario.urlopen Scenario.holding) Scenario.other_cfg Scenario.start
  = (Raise unsupported_mode, Scenario.start,
     EvWatchdog WdKick
       :: snd (checkService unit (Scenario.urlopen Scenario.holding)
                 [Scenario.self_url] None Scenario.start)).
Proof.
  refine (unsupported_mode_needs_healthy_node unit (Scenario.urlopen Scenario.holding)
            Scenario.other_cfg Scenario.start Scenario.start _ true _ _ _);
    try reflexivity; discriminate.
Defined.

(** The API answers the assignment with status 202. *)
Lemma takeFloatingIP_outcomes_witness :
  exists r s' logs,
    takeFloatingIP unit (Scenario.urlopen Scenario.refused) "203.0.113.5" "secret"
      Scenario.identified
    = (r, s',
       EvCall (TakeFloatingIP "203.0.113.5" "secret") :: [EvCall (GetMetadata true)]
         ++ EvRequest (assign_request "203.0.113.5" "secret") (assign_body (JInt 7)) 20
              (Ok {| status := 202; body := Ok (Some (JDict [("id", JStr "forbidden")])) |})
         :: logs) /\
    r = Raise (acquire_failed 202) /\
    logs = [EvLog ERROR "response body: {0}"
              [LBody (Some (JDict [("id", JStr "forbidden")]))]].
Proof.
  refine (proj2 (takeFloatingIP_outcomes unit (Scenario.urlopen Scenario.refused)
                   "203.0.113.5" "secret" Scenario.identified)
                (JInt 7) Scenario.identified [EvCall (GetMetadata true)] _).
  reflexivity.
Defined.

(** This droplet is 7, the API names droplet 9. *)
Lemma hasFloatingIP_compares_ids_witness :
  exists s' ev,
    hasFloatingIP unit (Scenario.urlopen Scenario.peer_down) "203.0.113.5" "secret"
      Scenario.start
    = (Ok false, s', ev) /\
    (forall n m, JInt 7 = JInt n -> JInt 9 = JInt m -> false = (n =? m)) /\
    (JInt 7 = JNull -> JInt 9 = JNull -> false = true).
Proof.
  refine (hasFloatingIP_compares_ids unit (Scenario.urlopen Scenario.peer_down)
            "203.0.113.5" "secret" Scenario.start Scenario.identified (JInt 7) _ _ _
            (JInt 9) _ _ _ _); reflexivity.
Defined.

(** A fetch past the cache, on a process that starts without metadata. *)
Lemma getMetadata_fetches_once_witness :
  map fst (requests (snd (getMetadata unit (Scenario.urlopen Scenario.api_down) false
                            Scenario.start)))
  = [probe None metadata_url] /\
  timeouts (snd (getMetadata unit (Scenario.urlopen Scenario.api_down) false
                   Scenario.start)) = [20] /\
  _metadata Scenario.identified
  = JDict [("droplet_id", JInt 7); ("hostname", JStr "standby-1")].
Proof.
  refine (getMetadata_fetches_once unit (Scenario.urlopen Scenario.api_down) false
            Scenario.start Scenario.identified
            (Ok (JDict [("droplet_id", JInt 7); ("hostname", JStr "standby-1")]))
            _ (or_intror eq_refl) _).
  reflexivity.
Defined.

Lemma main_reclaims_for_this_droplet_witness :
  exists id r s' logs,
    Py.subscript (_metadata Scenario.identified) (KStr "droplet_id") = Ok id /\
    Scenario.reclaim =
    (r, s',
     EvWatchdog WdKick
       :: snd (checkService unit (Scenario.urlopen Scenario.peer_down)
                 [Scenario.self_url] None Scenario.start)
       ++ snd (hasFloatingIP unit (Scenario.urlopen Scenario.peer_down)
                 "203.0.113.5" "secret" Scenario.start)
       ++ [log_lost; EvCall (TakeFloatingIP "203.0.113.5" "secret");
           EvCall (GetMetadata true);
           EvRequest (assign_request "203.0.113.5" "secret") (assign_body id) 20
             (fst (Scenario.urlopen Scenario.peer_down
                     (assign_request "203.0.113.5" "secret") (assign_body id) 20 tt))]
       ++ logs) /\
    (forall resp,
        fst (Scenario.urlopen Scenario.peer_down
               (assign_request "203.0.113.5" "secret") (assign_body id) 20 tt) = Ok resp ->
        status resp = 200 \/ status resp = 201 ->
        r = Ok tt /\
        logs = [EvLog INFO "Acquired the floating IP {0}" [LStr "203.0.113.5"];
                EvSleep 60]).
Proof.
  refine (main_reclaims_for_this_droplet unit (Scenario.urlopen Scenario.peer_down)
            Scenario.main_cfg Scenario.start Scenario.start Scenario.identified
            _ _ eq_refl _ _); reflexivity.
Defined.

Lemma cycle_calls_shape_witness :
  let C := CheckService [Scenario.self_url] None in
  let H := HasFloatingIP "203.0.113.5" "secret" in
  let T := TakeFloatingIP "203.0.113.5" "secret" in
  let G := GetMetadata true in
  calls (snd Scenario.reclaim) = [C] \/
  calls (snd Scenario.reclaim) = [C; H; G] \/
  ("main" = "main" /\ calls (snd Scenario.reclaim) = [C; H; G; T; G]) \/
  (exists peer,
      "main" = "standby" /\ None = Some peer /\
      (calls (snd Scenario.reclaim) = [C; H; G; CheckService peer None] \/
       calls (snd Scenario.reclaim) = [C; H; G; CheckService peer None; T; G])).
Proof.
  refine (cycle_calls_shape unit (Scenario.urlopen Scenario.peer_down)
            Scenario.main_cfg Scenario.start (snd (fst Scenario.reclaim))
            (fst (fst Scenario.reclaim)) (snd Scenario.reclaim) _).
  reflexivity.
Defined.


(** ** The watchdog on schedules *)


(** With the configured callback the thread ends at the first call,
    whatever follows. *)
Example watchdog_exits_at_first_call :
  Watchdog.run Watchdog.onWatchdogTimeout
    [Watchdog.Step; Watchdog.Elapse; Watchdog.Step;
     Watchdog.Step; Watchdog.Elapse; Watchdog.Step]
    Watchdog.started
  = {| Watchdog._kick := false; Watchdog._stop := false;
       Watchdog.at_ := Watchdog.Died 1; Watchdog.fired := 1 |}.
Proof. reflexivity. Qed.

(** A wait that ran out just before [stop()]: the call that was due
    begins after [stop()] has returned, and the thread ends at its next
    test. *)
Example watchdog_due_call_after_stop :
  Watchdog.run Watchdog.Returns
    ([Watchdog.Step; Watchdog.Elapse] ++ Watchdog.stop ++ [Watchdog.Step; Watchdog.Step])
    Watchdog.started
  = {| Watchdog._kick := true; Watchdog._stop := true;
       Watchdog.at_ := Watchdog.Finished; Watchdog.fired := 1 |}.
Proof. reflexivity. Qed.


(** The owner of the floating IP in an answer of the API that says more
    than that. *)
Lemma _item_finds_leaf_witness :
  _item (JDict [("floating_ip",
                 JDict [("ip", JStr "203.0.113.5");
                        ("droplet", JDict [("id", JInt 9); ("name", JStr "main-1")])]);
                ("links", JDict [])])
        owner_path JNull
  = Ok (JInt 9).
Proof.
  refine (_item_finds_leaf
            (JDict [("floating_ip",
                     JDict [("ip", JStr "203.0.113.5");
                            ("droplet", JDict [("id", JInt 9); ("name", JStr "main-1")])]);
                    ("links", JDict [])])
            ["floating_ip"; "droplet"; "id"] (JInt 9) JNull _).
  repeat (eapply reaches_down;
          [ repeat constructor; cbn; intuition discriminate
          | cbn; auto
          | ]).
  apply reaches_here.
Defined.
